(** * GPU-assisted validation: command-stream state capture and replay

    A shallow embedding of
    [layers/gpu/cmd_validation/gpuav_cmd_validation_common.cpp]:
    [BindValidationCmdsCommonDescSet], [RestorablePipelineState::Create],
    [RestorablePipelineState::Restore] and [GetBufferDeviceAddress].

    Handles and 32-bit integers are [Z]; [std::vector] is [list]; a
    [std::shared_ptr] is an optional location in an explicit store, so that
    pointer comparison and value comparison stay distinct.  Every
    [Dispatch*] call is recorded, in order, in the list of commands a
    function returns.  A function returns [None] where the C++ aborts on an
    [assert] or has no defined behaviour (an index outside a vector, a null
    pointer dereferenced). *)

From Stdlib Require Import ZArith List Lia Bool.
From stdpp Require Import base option list numbers sorting gmap.

Open Scope Z_scope.

(** ** Machine integers and handles *)

Definition uint32_t (z : Z) : Z := z mod 2 ^ 32.

Definition sizeof_uint32_t : Z := 4.

Definition VK_NULL_HANDLE : Z := 0.

Definition VkCommandBuffer := Z.
Definition VkPipeline := Z.
Definition VkPipelineLayout := Z.
Definition VkDescriptorSet := Z.
Definition VkShaderEXT := Z.
Definition VkBuffer := Z.
Definition VkDevice := Z.
Definition VkDeviceAddress := Z.
Definition VkShaderStageFlags := Z.

(** Modelled from the spec: the bind points named in its data model
    (Graphics, Compute, RayTracing) together with the [MAX_ENUM] value a
    snapshot holds before [Create] has run.  The enumeration is declared
    in the Vulkan headers. *)
Inductive VkPipelineBindPoint :=
| VK_PIPELINE_BIND_POINT_GRAPHICS
| VK_PIPELINE_BIND_POINT_COMPUTE
| VK_PIPELINE_BIND_POINT_RAY_TRACING_KHR
| VK_PIPELINE_BIND_POINT_MAX_ENUM.

Record VkPushConstantRange := {
  stageFlags : VkShaderStageFlags;
  offset : Z;
  size : Z
}.

(** A [VkWriteDescriptorSet] as the push-descriptor path copies it. *)
Record safe_VkWriteDescriptorSet := {
  dstBinding : Z;
  dstArrayElement : Z;
  descriptorCount : Z;
  descriptorType : Z
}.

(** A pointer into a byte array: the array and the position pointed at. *)
Record BytePtr := {
  ptr_array : list Z;
  ptr_pos : Z
}.

(** ** The state tracker's view of a command buffer *)

Module vvl.

(** [PushConstantRangesId] is a [std::shared_ptr] to a vector of ranges:
    [None] is the null pointer, [Some l] the address [l]. *)
Definition PushConstantRangesId := option positive.

Definition RangesStore := gmap positive (list VkPushConstantRange).

(** What the pointer points to, if anything. *)
Definition deref (store : RangesStore) (id : PushConstantRangesId)
  : option (list VkPushConstantRange) :=
  match id with
  | Some l => store !! l
  | None => None
  end.

Inductive LvlBindPoint :=
| BindPoint_Graphics
| BindPoint_Compute
| BindPoint_Ray_Tracing.

(** Modelled from the spec: [ConvertToLvlBindPoint] selects the
    binding-table slot of the command buffer for a bind point; its
    definition lives in a header.  [MAX_ENUM] names no slot. *)
Definition ConvertToLvlBindPoint (bind_point : VkPipelineBindPoint)
  : option LvlBindPoint :=
  match bind_point with
  | VK_PIPELINE_BIND_POINT_GRAPHICS => Some BindPoint_Graphics
  | VK_PIPELINE_BIND_POINT_COMPUTE => Some BindPoint_Compute
  | VK_PIPELINE_BIND_POINT_RAY_TRACING_KHR => Some BindPoint_Ray_Tracing
  | VK_PIPELINE_BIND_POINT_MAX_ENUM => None
  end.

Inductive ShaderObjectStage :=
| VERTEX
| TESSELLATION_CONTROL
| TESSELLATION_EVALUATION
| GEOMETRY
| FRAGMENT
| COMPUTE
| TASK
| MESH.

Record ShaderObject := {
  shader_handle : VkShaderEXT;
  create_info_stage : VkShaderStageFlags
}.

Record PipelineLayout := {
  push_constant_ranges : PushConstantRangesId
}.

Record Pipeline := {
  pipeline_handle : VkPipeline;
  PipelineLayoutState : PipelineLayout
}.

Record DescriptorSet := {
  set_handle : VkDescriptorSet;
  IsPushDescriptor : bool;
  GetWrites : list safe_VkWriteDescriptorSet
}.

Record PerSet := {
  bound_descriptor_set : option DescriptorSet;
  dynamicOffsets : list Z
}.

Record LastBound := {
  pipeline_state : option Pipeline;
  pipeline_layout : VkPipelineLayout;
  per_set : list PerSet;
  push_descriptor_set : option DescriptorSet;
  shader_object_states : ShaderObjectStage -> option ShaderObject
}.

Definition GetShaderState (last_bound : LastBound) (stage : ShaderObjectStage)
  : option ShaderObject :=
  shader_object_states last_bound stage.

Definition graphics_stages : list ShaderObjectStage :=
  [VERTEX; TESSELLATION_CONTROL; TESSELLATION_EVALUATION; GEOMETRY;
   FRAGMENT; TASK; MESH].

(** Modelled from the spec: [LastBound::GetAllBoundGraphicsShaders]
    returns all currently bound graphics-stage shader objects; the
    method is defined with the state tracker. *)
Definition GetAllBoundGraphicsShaders (last_bound : LastBound)
  : list ShaderObject :=
  omap (GetShaderState last_bound) graphics_stages.

Record CommandBuffer := {
  VkHandle : VkCommandBuffer;
  lastBound : LvlBindPoint -> LastBound;
  push_constant_data : list Z;
  push_constant_data_ranges : PushConstantRangesId
}.

End vvl.

(** ** Commands handed to the next layer *)

Inductive Cmd :=
| CmdBindPipeline
    (commandBuffer : VkCommandBuffer) (pipelineBindPoint : VkPipelineBindPoint)
    (pipeline : VkPipeline)
| CmdBindDescriptorSets
    (commandBuffer : VkCommandBuffer) (pipelineBindPoint : VkPipelineBindPoint)
    (layout : VkPipelineLayout) (firstSet : Z) (descriptorSetCount : Z)
    (pDescriptorSets : list VkDescriptorSet) (dynamicOffsetCount : Z)
    (pDynamicOffsets : list Z)
| CmdPushDescriptorSetKHR
    (commandBuffer : VkCommandBuffer) (pipelineBindPoint : VkPipelineBindPoint)
    (layout : VkPipelineLayout) (set : Z) (descriptorWriteCount : Z)
    (pDescriptorWrites : list safe_VkWriteDescriptorSet)
| CmdPushConstants
    (commandBuffer : VkCommandBuffer) (layout : VkPipelineLayout)
    (stageFlags : VkShaderStageFlags) (offset : Z) (size : Z)
    (pValues : BytePtr)
| CmdBindShadersEXT
    (commandBuffer : VkCommandBuffer) (stageCount : Z)
    (pStages : list VkShaderStageFlags) (pShaders : list VkShaderEXT).

Definition is_bind_pipeline (c : Cmd) : bool :=
  match c with CmdBindPipeline _ _ _ => true | _ => false end.

Definition is_bind_descriptor_sets (c : Cmd) : bool :=
  match c with CmdBindDescriptorSets _ _ _ _ _ _ _ _ => true | _ => false end.

Definition is_push_descriptor_set (c : Cmd) : bool :=
  match c with CmdPushDescriptorSetKHR _ _ _ _ _ _ => true | _ => false end.

Definition is_push_constants (c : Cmd) : bool :=
  match c with CmdPushConstants _ _ _ _ _ _ => true | _ => false end.

Definition is_bind_shaders (c : Cmd) : bool :=
  match c with CmdBindShadersEXT _ _ _ _ => true | _ => false end.

(** The pipeline or shader-object rebind. *)
Definition is_program_bind (c : Cmd) : bool :=
  is_bind_pipeline c || is_bind_shaders c.

(** A descriptor-set rebind, a push-descriptor reissue or a push-constants
    call: the bindings that are relative to a layout. *)
Definition is_layout_relative (c : Cmd) : bool :=
  is_bind_descriptor_sets c || is_push_descriptor_set c || is_push_constants c.

(** ** The source file's namespace *)

Module gpuav.

Import vvl.

(** *** BindValidationCmdsCommonDescSet *)

(** The locked GPU-AV command buffer: its handle and the descriptor set
    shared by all validation commands. *)
Record CommandBuffer := {
  cmd_VkHandle : VkCommandBuffer;
  GetValidationCmdCommonDescriptorSet : VkDescriptorSet
}.

Section DiagnosticBinder.

(** [cst::indices_count] and [glsl::kDiagCommonDescriptorSet] are
    constants of two headers; the binder is stated for any values. *)
Variable indices_count : Z.
Variable kDiagCommonDescriptorSet : Z.

Definition BindValidationCmdsCommonDescSet
    (cmd_buffer_state : CommandBuffer) (bind_point : VkPipelineBindPoint)
    (pipeline_layout : VkPipelineLayout) (cmd_index error_logger_index : Z)
  : option (list Cmd) :=
  if negb (cmd_index <? indices_count) then None
  else if negb (error_logger_index <? indices_count) then None
  else
    let dynamic_offsets :=
      [uint32_t (cmd_index * uint32_t sizeof_uint32_t);
       uint32_t (error_logger_index * uint32_t sizeof_uint32_t)] in
    Some [CmdBindDescriptorSets (cmd_VkHandle cmd_buffer_state) bind_point
            pipeline_layout kDiagCommonDescriptorSet 1
            [GetValidationCmdCommonDescriptorSet cmd_buffer_state]
            (uint32_t (Z.of_nat (length dynamic_offsets)))
            dynamic_offsets].

End DiagnosticBinder.

(** *** RestorablePipelineState *)

Record RestorablePipelineState := {
  cmd_buffer_ : VkCommandBuffer;
  pipeline_bind_point_ : VkPipelineBindPoint;
  pipeline_ : VkPipeline;
  pipeline_layout : VkPipelineLayout;
  descriptor_sets_ : list (VkDescriptorSet * Z);
  dynamic_offsets_ : list (list Z);
  push_descriptor_set_index_ : Z;
  push_descriptor_set_writes_ : list safe_VkWriteDescriptorSet;
  push_constants_data_ : list Z;
  push_constants_ranges_ : PushConstantRangesId;
  shader_objects_ : list ShaderObject
}.

(** Modelled from the spec: a snapshot before [Create] runs is empty;
    the member initialisers are in the class declaration, in a header. *)
Definition new_state : RestorablePipelineState := {|
  cmd_buffer_ := VK_NULL_HANDLE;
  pipeline_bind_point_ := VK_PIPELINE_BIND_POINT_MAX_ENUM;
  pipeline_ := VK_NULL_HANDLE;
  pipeline_layout := VK_NULL_HANDLE;
  descriptor_sets_ := [];
  dynamic_offsets_ := [];
  push_descriptor_set_index_ := 0;
  push_descriptor_set_writes_ := [];
  push_constants_data_ := [];
  push_constants_ranges_ := None;
  shader_objects_ := []
|}.

(** Assignments to single members of [*this]. *)

Definition set_cmd_buffer_ v (s : RestorablePipelineState) :=
  {| cmd_buffer_ := v;
     pipeline_bind_point_ := pipeline_bind_point_ s;
     pipeline_ := pipeline_ s;
     pipeline_layout := pipeline_layout s;
     descriptor_sets_ := descriptor_sets_ s;
     dynamic_offsets_ := dynamic_offsets_ s;
     push_descriptor_set_index_ := push_descriptor_set_index_ s;
     push_descriptor_set_writes_ := push_descriptor_set_writes_ s;
     push_constants_data_ := push_constants_data_ s;
     push_constants_ranges_ := push_constants_ranges_ s;
     shader_objects_ := shader_objects_ s |}.

Definition set_pipeline_bind_point_ v (s : RestorablePipelineState) :=
  {| cmd_buffer_ := cmd_buffer_ s;
     pipeline_bind_point_ := v;
     pipeline_ := pipeline_ s;
     pipeline_layout := pipeline_layout s;
     descriptor_sets_ := descriptor_sets_ s;
     dynamic_offsets_ := dynamic_offsets_ s;
     push_descriptor_set_index_ := push_descriptor_set_index_ s;
     push_descriptor_set_writes_ := push_descriptor_set_writes_ s;
     push_constants_data_ := push_constants_data_ s;
     push_constants_ranges_ := push_constants_ranges_ s;
     shader_objects_ := shader_objects_ s |}.

Definition set_pipeline_ v (s : RestorablePipelineState) :=
  {| cmd_buffer_ := cmd_buffer_ s;
     pipeline_bind_point_ := pipeline_bind_point_ s;
     pipeline_ := v;
     pipeline_layout := pipeline_layout s;
     descriptor_sets_ := descriptor_sets_ s;
     dynamic_offsets_ := dynamic_offsets_ s;
     push_descriptor_set_index_ := push_descriptor_set_index_ s;
     push_descriptor_set_writes_ := push_descriptor_set_writes_ s;
     push_constants_data_ := push_constants_data_ s;
     push_constants_ranges_ := push_constants_ranges_ s;
     shader_objects_ := shader_objects_ s |}.

Definition set_pipeline_layout v (s : RestorablePipelineState) :=
  {| cmd_buffer_ := cmd_buffer_ s;
     pipeline_bind_point_ := pipeline_bind_point_ s;
     pipeline_ := pipeline_ s;
     pipeline_layout := v;
     descriptor_sets_ := descriptor_sets_ s;
     dynamic_offsets_ := dynamic_offsets_ s;
     push_descriptor_set_index_ := push_descriptor_set_index_ s;
     push_descriptor_set_writes_ := push_descriptor_set_writes_ s;
     push_constants_data_ := push_constants_data_ s;
     push_constants_ranges_ := push_constants_ranges_ s;
     shader_objects_ := shader_objects_ s |}.

Definition set_descriptor_sets_ v (s : RestorablePipelineState) :=
  {| cmd_buffer_ := cmd_buffer_ s;
     pipeline_bind_point_ := pipeline_bind_point_ s;
     pipeline_ := pipeline_ s;
     pipeline_layout := pipeline_layout s;
     descriptor_sets_ := v;
     dynamic_offsets_ := dynamic_offsets_ s;
     push_descriptor_set_index_ := push_descriptor_set_index_ s;
     push_descriptor_set_writes_ := push_descriptor_set_writes_ s;
     push_constants_data_ := push_constants_data_ s;
     push_constants_ranges_ := push_constants_ranges_ s;
     shader_objects_ := shader_objects_ s |}.

Definition set_dynamic_offsets_ v (s : RestorablePipelineState) :=
  {| cmd_buffer_ := cmd_buffer_ s;
     pipeline_bind_point_ := pipeline_bind_point_ s;
     pipeline_ := pipeline_ s;
     pipeline_layout := pipeline_layout s;
     descriptor_sets_ := descriptor_sets_ s;
     dynamic_offsets_ := v;
     push_descriptor_set_index_ := push_descriptor_set_index_ s;
     push_descriptor_set_writes_ := push_descriptor_set_writes_ s;
     push_constants_data_ := push_constants_data_ s;
     push_constants_ranges_ := push_constants_ranges_ s;
     shader_objects_ := shader_objects_ s |}.

Definition set_push_descriptor_set_index_ v (s : RestorablePipelineState) :=
  {| cmd_buffer_ := cmd_buffer_ s;
     pipeline_bind_point_ := pipeline_bind_point_ s;
     pipeline_ := pipeline_ s;
     pipeline_layout := pipeline_layout s;
     descriptor_sets_ := descriptor_sets_ s;
     dynamic_offsets_ := dynamic_offsets_ s;
     push_descriptor_set_index_ := v;
     push_descriptor_set_writes_ := push_descriptor_set_writes_ s;
     push_constants_data_ := push_constants_data_ s;
     push_constants_ranges_ := push_constants_ranges_ s;
     shader_objects_ := shader_objects_ s |}.

Definition set_push_descriptor_set_writes_ v (s : RestorablePipelineState) :=
  {| cmd_buffer_ := cmd_buffer_ s;
     pipeline_bind_point_ := pipeline_bind_point_ s;
     pipeline_ := pipeline_ s;
     pipeline_layout := pipeline_layout s;
     descriptor_sets_ := descriptor_sets_ s;
     dynamic_offsets_ := dynamic_offsets_ s;
     push_descriptor_set_index_ := push_descriptor_set_index_ s;
     push_descriptor_set_writes_ := v;
     push_constants_data_ := push_constants_data_ s;
     push_constants_ranges_ := push_constants_ranges_ s;
     shader_objects_ := shader_objects_ s |}.

Definition set_push_constants v_data v_ranges (s : RestorablePipelineState) :=
  {| cmd_buffer_ := cmd_buffer_ s;
     pipeline_bind_point_ := pipeline_bind_point_ s;
     pipeline_ := pipeline_ s;
     pipeline_layout := pipeline_layout s;
     descriptor_sets_ := descriptor_sets_ s;
     dynamic_offsets_ := dynamic_offsets_ s;
     push_descriptor_set_index_ := push_descriptor_set_index_ s;
     push_descriptor_set_writes_ := push_descriptor_set_writes_ s;
     push_constants_data_ := v_data;
     push_constants_ranges_ := v_ranges;
     shader_objects_ := shader_objects_ s |}.

Definition set_shader_objects_ v (s : RestorablePipelineState) :=
  {| cmd_buffer_ := cmd_buffer_ s;
     pipeline_bind_point_ := pipeline_bind_point_ s;
     pipeline_ := pipeline_ s;
     pipeline_layout := pipeline_layout s;
     descriptor_sets_ := descriptor_sets_ s;
     dynamic_offsets_ := dynamic_offsets_ s;
     push_descriptor_set_index_ := push_descriptor_set_index_ s;
     push_descriptor_set_writes_ := push_descriptor_set_writes_ s;
     push_constants_data_ := push_constants_data_ s;
     push_constants_ranges_ := push_constants_ranges_ s;
     shader_objects_ := v |}.

(** One iteration of the loop over [last_bound.per_set], at index [i]. *)
Definition Create_per_set (i : nat) (slot : PerSet)
    (self : RestorablePipelineState) : RestorablePipelineState :=
  match bound_descriptor_set slot with
  | Some bound =>
      let self :=
        set_descriptor_sets_
          (descriptor_sets_ self ++ [(set_handle bound, uint32_t (Z.of_nat i))])
          self in
      let self :=
        if IsPushDescriptor bound
        then set_push_descriptor_set_index_ (uint32_t (Z.of_nat i)) self
        else self in
      set_dynamic_offsets_ (dynamic_offsets_ self ++ [dynamicOffsets slot]) self
  | None => self
  end.

(** The loop [for (i = 0; i < per_set.size(); i++)], entered at [i] with
    the slots from [i] on still to visit. *)
Fixpoint Create_per_set_loop (i : nat) (slots : list PerSet)
    (self : RestorablePipelineState) : RestorablePipelineState :=
  match slots with
  | [] => self
  | slot :: slots' =>
      Create_per_set_loop (S i) slots' (Create_per_set i slot self)
  end.

Definition Create (self : RestorablePipelineState)
    (cb_state : vvl.CommandBuffer) (bind_point : VkPipelineBindPoint)
  : option RestorablePipelineState :=
  let self := set_cmd_buffer_ (VkHandle cb_state) self in
  let self := set_pipeline_bind_point_ bind_point self in
  lv_bind_point ← ConvertToLvlBindPoint bind_point;
  let last_bound := lastBound cb_state lv_bind_point in
  match pipeline_state last_bound with
  | Some bound_pipeline =>
      let self := set_pipeline_ (pipeline_handle bound_pipeline) self in
      let self := set_pipeline_layout (vvl.pipeline_layout last_bound) self in
      let self := Create_per_set_loop 0 (per_set last_bound) self in
      let self :=
        match push_descriptor_set last_bound with
        | Some pushed => set_push_descriptor_set_writes_ (GetWrites pushed) self
        | None => self
        end in
      let pipeline_layout := PipelineLayoutState bound_pipeline in
      if decide (push_constant_ranges pipeline_layout
                 = push_constant_data_ranges cb_state)
      then Some (set_push_constants (push_constant_data cb_state)
                   (push_constant_ranges pipeline_layout) self)
      else Some self
  | None =>
      match shader_objects_ self with
      | _ :: _ => None
      | [] =>
          match lv_bind_point with
          | BindPoint_Graphics =>
              Some (set_shader_objects_ (GetAllBoundGraphicsShaders last_bound) self)
          | BindPoint_Compute =>
              match GetShaderState last_bound COMPUTE with
              | Some compute_shader =>
                  Some (set_shader_objects_
                          (shader_objects_ self ++ [compute_shader]) self)
              | None => Some self
              end
          | BindPoint_Ray_Tracing => Some self
          end
      end
  end.

(** The loop over [descriptor_sets_], entered at index [i] with the
    entries from [i] on still to visit. *)
Fixpoint Restore_descriptor_sets (self : RestorablePipelineState) (i : nat)
    (entries : list (VkDescriptorSet * Z)) : option (list Cmd) :=
  match entries with
  | [] => Some []
  | (descriptor_set, set_index) :: entries' =>
      issued ←
        (if decide (descriptor_set ≠ VK_NULL_HANDLE) then
           offsets ← dynamic_offsets_ self !! i;
           Some [CmdBindDescriptorSets (cmd_buffer_ self)
                   (pipeline_bind_point_ self) (pipeline_layout self)
                   set_index 1 [descriptor_set]
                   (uint32_t (Z.of_nat (length offsets))) offsets]
         else Some []);
      rest ← Restore_descriptor_sets self (S i) entries';
      Some (issued ++ rest)
  end.

(** The loop over [*push_constants_ranges_]. *)
Fixpoint Restore_push_constants (self : RestorablePipelineState)
    (ranges : list VkPushConstantRange) : list Cmd :=
  match ranges with
  | [] => []
  | push_constant_range :: ranges' =>
      if decide (size push_constant_range = 0)
      then Restore_push_constants self ranges'
      else
        CmdPushConstants (cmd_buffer_ self) (pipeline_layout self)
          (stageFlags push_constant_range) (offset push_constant_range)
          (size push_constant_range)
          {| ptr_array := push_constants_data_ self; ptr_pos := 0 |}
        :: Restore_push_constants self ranges'
  end.

(** The block guarded by [!push_descriptor_set_writes_.empty()]. *)
Definition Restore_push_descriptor_set (self : RestorablePipelineState)
  : list Cmd :=
  match push_descriptor_set_writes_ self with
  | [] => []
  | _ :: _ =>
      [CmdPushDescriptorSetKHR (cmd_buffer_ self)
         (pipeline_bind_point_ self) (pipeline_layout self)
         (push_descriptor_set_index_ self)
         (uint32_t (Z.of_nat (length (push_descriptor_set_writes_ self))))
         (push_descriptor_set_writes_ self)]
  end.

(** The block guarded by [pipeline_ != VK_NULL_HANDLE]. *)
Definition Restore_pipeline (store : RangesStore)
    (self : RestorablePipelineState) : option (list Cmd) :=
  set_cmds ←
    (match descriptor_sets_ self with
     | [] => Some []
     | _ :: _ => Restore_descriptor_sets self 0 (descriptor_sets_ self)
     end);
  push_constant_cmds ←
    (match push_constants_data_ self with
     | [] => Some []
     | _ :: _ =>
         ranges ← deref store (push_constants_ranges_ self);
         Some (Restore_push_constants self ranges)
     end);
  Some (CmdBindPipeline (cmd_buffer_ self) (pipeline_bind_point_ self)
          (pipeline_ self)
        :: set_cmds ++ Restore_push_descriptor_set self ++ push_constant_cmds).

(** The block guarded by [!shader_objects_.empty()]. *)
Definition Restore_shader_objects (self : RestorablePipelineState)
  : list Cmd :=
  match shader_objects_ self with
  | [] => []
  | _ :: _ =>
      let stages := create_info_stage <$> shader_objects_ self in
      let shaders := shader_handle <$> shader_objects_ self in
      [CmdBindShadersEXT (cmd_buffer_ self)
         (uint32_t (Z.of_nat (length (shader_objects_ self)))) stages shaders]
  end.

Definition Restore (store : RangesStore) (self : RestorablePipelineState)
  : option (list Cmd) :=
  pipeline_cmds ←
    (if decide (pipeline_ self ≠ VK_NULL_HANDLE)
     then Restore_pipeline store self
     else Some []);
  Some (pipeline_cmds ++ Restore_shader_objects self).

(** *** GetBufferDeviceAddress *)

(** Modelled from the spec: an extension is either enabled or not;
    [ExtEnabled] and [IsExtEnabled] are declared in a header. *)
Inductive ExtEnabled :=
| kNotEnabled
| kEnabledByCreateinfo
| kEnabledByApiLevel
| kEnabledByInteraction.

Definition IsExtEnabled (extension : ExtEnabled) : bool :=
  match extension with
  | kNotEnabled => false
  | _ => true
  end.

Record DeviceExtensions := {
  vk_ext_buffer_device_address : ExtEnabled;
  vk_khr_buffer_device_address : ExtEnabled
}.

Record Validator := {
  api_version : Z;
  device : VkDevice;
  device_extensions : DeviceExtensions
}.

(** [VK_MAKE_API_VERSION(0, 1, 2, 0)]. *)
Definition VK_API_VERSION_1_2 : Z :=
  Z.lor (Z.shiftl 1 22) (Z.shiftl 2 12).

(** The three entry points of the next layer. *)
Inductive AddressQuery :=
| GetBufferDeviceAddressCore (device : VkDevice) (buffer : VkBuffer)
| GetBufferDeviceAddressEXT (device : VkDevice) (buffer : VkBuffer)
| GetBufferDeviceAddressKHR (device : VkDevice) (buffer : VkBuffer).

Definition Location := Z.

Section AddressResolver.

(** What the next layer answers to a query. *)
Variable Dispatch : AddressQuery -> VkDeviceAddress.

(** Returns the queries made, in order, and the address. *)
Definition GetBufferDeviceAddress (gpuav : Validator) (buffer : VkBuffer)
    (loc : Location) : list AddressQuery * VkDeviceAddress :=
  if VK_API_VERSION_1_2 <=? api_version gpuav then
    let q := GetBufferDeviceAddressCore (device gpuav) buffer in
    ([q], Dispatch q)
  else if IsExtEnabled (vk_ext_buffer_device_address (device_extensions gpuav)) then
    let q := GetBufferDeviceAddressEXT (device gpuav) buffer in
    ([q], Dispatch q)
  else if IsExtEnabled (vk_khr_buffer_device_address (device_extensions gpuav)) then
    let q := GetBufferDeviceAddressKHR (device gpuav) buffer in
    ([q], Dispatch q)
  else ([], 0).

End AddressResolver.

End gpuav.

Import vvl gpuav.

(** ** The push-constant block of the command buffer *)

(** Modelled from the spec: push-constants(command buffer, layout,
    stage-flags, offset, size, data) of the command-recording API
    overwrites [size] bytes of the command buffer's push-constant block,
    from byte [offset] on, with the bytes found at [data]; no other
    command touches the block.  The API is an external collaborator. *)
Definition push_constants_effect (c : Cmd) (block : list Z) : list Z :=
  match c with
  | CmdPushConstants _ _ _ offset size pValues =>
      list_inserts (Z.to_nat offset)
        (take (Z.to_nat size) (drop (Z.to_nat (ptr_pos pValues)) (ptr_array pValues)))
        block
  | _ => block
  end.

Definition replay_push_constants (cmds : list Cmd) (block : list Z) : list Z :=
  fold_left (fun b c => push_constants_effect c b) cmds block.

(** ** Vocabulary of the statements *)

Definition pipeline_variant_populated (s : RestorablePipelineState) : Prop :=
  pipeline_ s ≠ VK_NULL_HANDLE.

Definition shader_variant_populated (s : RestorablePipelineState) : Prop :=
  shader_objects_ s ≠ [].

(** The shader-object stages that are bound through a bind point. *)
Definition stages_of (lv_bind_point : LvlBindPoint) : list ShaderObjectStage :=
  match lv_bind_point with
  | BindPoint_Graphics => graphics_stages
  | BindPoint_Compute => [COMPUTE]
  | BindPoint_Ray_Tracing => []
  end.

(** The command buffer has nothing bound for the bind point: no pipeline
    and no shader object of its stages. *)
Definition nothing_bound (last_bound : LastBound) (lv_bind_point : LvlBindPoint)
  : Prop :=
  pipeline_state last_bound = None
  ∧ ∀ stage, stage ∈ stages_of lv_bind_point →
             GetShaderState last_bound stage = None.

(** The entries the capture loop records when it visits [slots], the
    first of which has index [i]: handle, set index, dynamic offsets. *)
Fixpoint per_set_entries (i : nat) (slots : list PerSet)
  : list (VkDescriptorSet * Z * list Z) :=
  match slots with
  | [] => []
  | slot :: slots' =>
      match bound_descriptor_set slot with
      | Some bound =>
          (set_handle bound, uint32_t (Z.of_nat i), dynamicOffsets slot)
          :: per_set_entries (S i) slots'
      | None => per_set_entries (S i) slots'
      end
  end.

(** The shader objects the capture records when no pipeline is bound. *)
Definition captured_shader_objects (last_bound : LastBound)
    (lv_bind_point : LvlBindPoint) : list ShaderObject :=
  match lv_bind_point with
  | BindPoint_Graphics => GetAllBoundGraphicsShaders last_bound
  | BindPoint_Compute =>
      match GetShaderState last_bound COMPUTE with
      | Some compute_shader => [compute_shader]
      | None => []
      end
  | BindPoint_Ray_Tracing => []
  end.

(** The push-constants call [Restore] makes for one range. *)
Definition reissued_push_constants (s : RestorablePipelineState)
    (r : VkPushConstantRange) : Cmd :=
  CmdPushConstants (cmd_buffer_ s) (pipeline_layout s) (stageFlags r)
    (offset r) (size r)
    {| ptr_array := push_constants_data_ s; ptr_pos := 0 |}.

(** The push-constants calls of a restore: none if no bytes were
    captured, otherwise those of the captured ranges. *)
Inductive push_constant_cmds_of (store : RangesStore)
    (s : RestorablePipelineState) : list Cmd → Prop :=
| no_bytes_captured :
    push_constants_data_ s = [] → push_constant_cmds_of store s []
| bytes_captured ranges :
    push_constants_data_ s ≠ [] →
    deref store (push_constants_ranges_ s) = Some ranges →
    push_constant_cmds_of store s (Restore_push_constants s ranges).

(** No pipeline or shader rebind comes after a layout-relative command. *)
Definition program_bind_first (cmds : list Cmd) : Prop :=
  ∀ (i j : nat) c d,
    cmds !! i = Some c → cmds !! j = Some d →
    is_layout_relative c = true → is_program_bind d = true →
    (j < i)%nat.

(** The command buffer a command is recorded into. *)
Definition cmd_commandBuffer (c : Cmd) : VkCommandBuffer :=
  match c with
  | CmdBindPipeline commandBuffer _ _ => commandBuffer
  | CmdBindDescriptorSets commandBuffer _ _ _ _ _ _ _ => commandBuffer
  | CmdPushDescriptorSetKHR commandBuffer _ _ _ _ _ => commandBuffer
  | CmdPushConstants commandBuffer _ _ _ _ _ => commandBuffer
  | CmdBindShadersEXT commandBuffer _ _ _ => commandBuffer
  end.

(** The bind point of a command, for the commands that take one. *)
Definition cmd_bind_point (c : Cmd) : option VkPipelineBindPoint :=
  match c with
  | CmdBindPipeline _ pipelineBindPoint _ => Some pipelineBindPoint
  | CmdBindDescriptorSets _ pipelineBindPoint _ _ _ _ _ _ => Some pipelineBindPoint
  | CmdPushDescriptorSetKHR _ pipelineBindPoint _ _ _ _ => Some pipelineBindPoint
  | CmdPushConstants _ _ _ _ _ _ => None
  | CmdBindShadersEXT _ _ _ _ => None
  end.

(** The pipeline layout of a command, for the commands that take one. *)
Definition cmd_layout (c : Cmd) : option VkPipelineLayout :=
  match c with
  | CmdBindPipeline _ _ _ => None
  | CmdBindDescriptorSets _ _ layout _ _ _ _ _ => Some layout
  | CmdPushDescriptorSetKHR _ _ layout _ _ _ => Some layout
  | CmdPushConstants _ layout _ _ _ _ => Some layout
  | CmdBindShadersEXT _ _ _ _ => None
  end.

(** The kinds of command, numbered as [Restore] goes through them. *)
Definition restore_rank (c : Cmd) : nat :=
  match c with
  | CmdBindPipeline _ _ _ => 0
  | CmdBindDescriptorSets _ _ _ _ _ _ _ _ => 1
  | CmdPushDescriptorSetKHR _ _ _ _ _ _ => 2
  | CmdPushConstants _ _ _ _ _ _ => 3
  | CmdBindShadersEXT _ _ _ _ => 4
  end.

(** The descriptor-set bind [Restore] makes for one recorded entry. *)
Definition reissued_descriptor_set (commandBuffer : VkCommandBuffer)
    (bind_point : VkPipelineBindPoint) (layout : VkPipelineLayout)
    (entry : VkDescriptorSet * Z * list Z) : Cmd :=
  CmdBindDescriptorSets commandBuffer bind_point layout (snd (fst entry)) 1
    [fst (fst entry)] (uint32_t (Z.of_nat (length (snd entry)))) (snd entry).

(** A slot holds a push-descriptor set. *)
Definition holds_push_descriptor (slot : PerSet) : Prop :=
  ∃ bound, bound_descriptor_set slot = Some bound ∧ IsPushDescriptor bound = true.

(** A byte position lies in a push-constant range. *)
Definition in_range (r : VkPushConstantRange) (j : nat) : Prop :=
  (Z.to_nat (offset r) <= j < Z.to_nat (offset r) + Z.to_nat (size r))%nat.

(** [c] may come before [d] in a restore: its kind comes earlier, or
    both are descriptor-set binds, or both are push-constants calls. *)
Definition restore_before (c d : Cmd) : Prop :=
  (restore_rank c < restore_rank d)%nat
  ∨ (restore_rank c = restore_rank d
     ∧ (restore_rank c = 1%nat ∨ restore_rank c = 3%nat)).

(** ** Concrete command buffers *)

Module Examples.

Definition VK_SHADER_STAGE_VERTEX_BIT : Z := 1.
Definition VK_SHADER_STAGE_FRAGMENT_BIT : Z := 16.
Definition VK_SHADER_STAGE_COMPUTE_BIT : Z := 32.

Definition unbound_slot : PerSet :=
  {| bound_descriptor_set := None; dynamicOffsets := [] |}.

Definition nothing : LastBound :=
  {| pipeline_state := None;
     vvl.pipeline_layout := VK_NULL_HANDLE;
     per_set := [];
     push_descriptor_set := None;
     shader_object_states := fun _ => None |}.

Definition only_graphics (last_bound : LastBound) (lv : LvlBindPoint)
  : LastBound :=
  match lv with
  | BindPoint_Graphics => last_bound
  | _ => nothing
  end.

(** Pipeline P = 100 with layout L = 200, set D = 300 at index 2 with
    dynamic offset [4], bytes [1,2,3,4] over the vertex range {0, 4}. *)
Definition P : VkPipeline := 100.
Definition L : VkPipelineLayout := 200.
Definition D : VkDescriptorSet := 300.

Definition scenario_store : RangesStore :=
  {[ 1%positive :=
       [{| stageFlags := VK_SHADER_STAGE_VERTEX_BIT; offset := 0; size := 4 |}] ]}.

Definition scenario_pipeline : Pipeline :=
  {| pipeline_handle := P;
     PipelineLayoutState := {| push_constant_ranges := Some 1%positive |} |}.

Definition scenario_cb : vvl.CommandBuffer :=
  {| VkHandle := 1;
     lastBound := only_graphics
       {| pipeline_state := Some scenario_pipeline;
          vvl.pipeline_layout := L;
          per_set :=
            [unbound_slot; unbound_slot;
             {| bound_descriptor_set :=
                  Some {| set_handle := D; IsPushDescriptor := false;
                          GetWrites := [] |};
                dynamicOffsets := [4] |}];
          push_descriptor_set := None;
          shader_object_states := fun _ => None |};
     push_constant_data := [1; 2; 3; 4];
     push_constant_data_ranges := Some 1%positive |}.

(** What capture and restore are expected to produce for it. *)
Definition scenario_snapshot : RestorablePipelineState :=
  {| cmd_buffer_ := 1;
     pipeline_bind_point_ := VK_PIPELINE_BIND_POINT_GRAPHICS;
     pipeline_ := P;
     pipeline_layout := L;
     descriptor_sets_ := [(D, 2)];
     dynamic_offsets_ := [[4]];
     push_descriptor_set_index_ := 0;
     push_descriptor_set_writes_ := [];
     push_constants_data_ := [1; 2; 3; 4];
     push_constants_ranges_ := Some 1%positive;
     shader_objects_ := [] |}.

Definition scenario_cmds : list Cmd :=
  [CmdBindPipeline 1 VK_PIPELINE_BIND_POINT_GRAPHICS P;
   CmdBindDescriptorSets 1 VK_PIPELINE_BIND_POINT_GRAPHICS L 2 1 [D] 1 [4];
   CmdPushConstants 1 L VK_SHADER_STAGE_VERTEX_BIT 0 4
     {| ptr_array := [1; 2; 3; 4]; ptr_pos := 0 |}].

(** The same pipeline with a layout of two ranges, vertex {0, 4} and
    fragment {4, 4}, and eight bytes written. *)
Definition two_ranges_store : RangesStore :=
  {[ 1%positive :=
       [{| stageFlags := VK_SHADER_STAGE_VERTEX_BIT; offset := 0; size := 4 |};
        {| stageFlags := VK_SHADER_STAGE_FRAGMENT_BIT; offset := 4; size := 4 |}] ]}.

Definition two_ranges_cb : vvl.CommandBuffer :=
  {| VkHandle := 1;
     lastBound := only_graphics
       {| pipeline_state := Some scenario_pipeline;
          vvl.pipeline_layout := L;
          per_set := [];
          push_descriptor_set := None;
          shader_object_states := fun _ => None |};
     push_constant_data := [1; 2; 3; 4; 5; 6; 7; 8];
     push_constant_data_ranges := Some 1%positive |}.

Definition two_ranges_snapshot : RestorablePipelineState :=
  {| cmd_buffer_ := 1;
     pipeline_bind_point_ := VK_PIPELINE_BIND_POINT_GRAPHICS;
     pipeline_ := P;
     pipeline_layout := L;
     descriptor_sets_ := [];
     dynamic_offsets_ := [];
     push_descriptor_set_index_ := 0;
     push_descriptor_set_writes_ := [];
     push_constants_data_ := [1; 2; 3; 4; 5; 6; 7; 8];
     push_constants_ranges_ := Some 1%positive;
     shader_objects_ := [] |}.

Definition two_ranges_cmds : list Cmd :=
  [CmdBindPipeline 1 VK_PIPELINE_BIND_POINT_GRAPHICS P;
   CmdPushConstants 1 L VK_SHADER_STAGE_VERTEX_BIT 0 4
     {| ptr_array := [1; 2; 3; 4; 5; 6; 7; 8]; ptr_pos := 0 |};
   CmdPushConstants 1 L VK_SHADER_STAGE_FRAGMENT_BIT 4 4
     {| ptr_array := [1; 2; 3; 4; 5; 6; 7; 8]; ptr_pos := 0 |}].

(** The layout declares the vertex range {0, 4}; the command buffer
    last wrote the fragment range {0, 4}. *)
Definition mismatch_store : RangesStore :=
  {[ 1%positive :=
       [{| stageFlags := VK_SHADER_STAGE_VERTEX_BIT; offset := 0; size := 4 |}];
     2%positive :=
       [{| stageFlags := VK_SHADER_STAGE_FRAGMENT_BIT; offset := 0; size := 4 |}] ]}.

Definition mismatch_cb : vvl.CommandBuffer :=
  {| VkHandle := 1;
     lastBound := lastBound scenario_cb;
     push_constant_data := [9; 9; 9; 9];
     push_constant_data_ranges := Some 2%positive |}.

(** A layout with an empty range between two others. *)
Definition zero_size_store : RangesStore :=
  {[ 1%positive :=
       [{| stageFlags := VK_SHADER_STAGE_VERTEX_BIT; offset := 0; size := 4 |};
        {| stageFlags := VK_SHADER_STAGE_COMPUTE_BIT; offset := 4; size := 0 |};
        {| stageFlags := VK_SHADER_STAGE_FRAGMENT_BIT; offset := 4; size := 4 |}] ]}.

Definition zero_size_snapshot : RestorablePipelineState :=
  {| cmd_buffer_ := 1;
     pipeline_bind_point_ := VK_PIPELINE_BIND_POINT_GRAPHICS;
     pipeline_ := P;
     pipeline_layout := L;
     descriptor_sets_ := [];
     dynamic_offsets_ := [];
     push_descriptor_set_index_ := 0;
     push_descriptor_set_writes_ := [];
     push_constants_data_ := [21; 22; 23; 24; 25; 26; 27; 28];
     push_constants_ranges_ := Some 1%positive;
     shader_objects_ := [] |}.

Definition zero_size_cmds : list Cmd :=
  [CmdBindPipeline 1 VK_PIPELINE_BIND_POINT_GRAPHICS P;
   CmdPushConstants 1 L VK_SHADER_STAGE_VERTEX_BIT 0 4
     {| ptr_array := [21; 22; 23; 24; 25; 26; 27; 28]; ptr_pos := 0 |};
   CmdPushConstants 1 L VK_SHADER_STAGE_FRAGMENT_BIT 4 4
     {| ptr_array := [21; 22; 23; 24; 25; 26; 27; 28]; ptr_pos := 0 |}].

(** A push-descriptor set bound at index 0: its state object exists, its
    handle is null. *)
Definition pushed_write : safe_VkWriteDescriptorSet :=
  {| dstBinding := 0; dstArrayElement := 0; descriptorCount := 1;
     descriptorType := 7 |}.

Definition push_set : DescriptorSet :=
  {| set_handle := VK_NULL_HANDLE; IsPushDescriptor := true;
     GetWrites := [pushed_write] |}.

Definition push_descriptor_cb : vvl.CommandBuffer :=
  {| VkHandle := 1;
     lastBound := only_graphics
       {| pipeline_state := Some scenario_pipeline;
          vvl.pipeline_layout := L;
          per_set :=
            [{| bound_descriptor_set := Some push_set; dynamicOffsets := [] |}];
          push_descriptor_set := Some push_set;
          shader_object_states := fun _ => None |};
     push_constant_data := [];
     push_constant_data_ranges := None |}.

Definition push_descriptor_snapshot : RestorablePipelineState :=
  {| cmd_buffer_ := 1;
     pipeline_bind_point_ := VK_PIPELINE_BIND_POINT_GRAPHICS;
     pipeline_ := P;
     pipeline_layout := L;
     descriptor_sets_ := [(VK_NULL_HANDLE, 0)];
     dynamic_offsets_ := [[]];
     push_descriptor_set_index_ := 0;
     push_descriptor_set_writes_ := [pushed_write];
     push_constants_data_ := [];
     push_constants_ranges_ := None;
     shader_objects_ := [] |}.

Definition push_descriptor_cmds : list Cmd :=
  [CmdBindPipeline 1 VK_PIPELINE_BIND_POINT_GRAPHICS P;
   CmdPushDescriptorSetKHR 1 VK_PIPELINE_BIND_POINT_GRAPHICS L 0 1
     [pushed_write]].

(** No pipeline; a vertex and a fragment shader object on the graphics
    bind point, a compute shader object on the compute bind point. *)
Definition vertex_shader : ShaderObject :=
  {| shader_handle := 11; create_info_stage := VK_SHADER_STAGE_VERTEX_BIT |}.
Definition fragment_shader : ShaderObject :=
  {| shader_handle := 12; create_info_stage := VK_SHADER_STAGE_FRAGMENT_BIT |}.
Definition compute_shader : ShaderObject :=
  {| shader_handle := 13; create_info_stage := VK_SHADER_STAGE_COMPUTE_BIT |}.

Definition shader_object_cb : vvl.CommandBuffer :=
  {| VkHandle := 1;
     lastBound := fun lv =>
       {| pipeline_state := None;
          vvl.pipeline_layout := VK_NULL_HANDLE;
          per_set := [];
          push_descriptor_set := None;
          shader_object_states := fun stage =>
            match lv, stage with
            | BindPoint_Graphics, VERTEX => Some vertex_shader
            | BindPoint_Graphics, FRAGMENT => Some fragment_shader
            | BindPoint_Compute, COMPUTE => Some compute_shader
            | _, _ => None
            end |};
     push_constant_data := [];
     push_constant_data_ranges := None |}.

Definition diag_cmd_buffer : gpuav.CommandBuffer :=
  {| cmd_VkHandle := 1; GetValidationCmdCommonDescriptorSet := 500 |}.

Definition core_validator : Validator :=
  {| api_version := VK_API_VERSION_1_2;
     device := 9;
     device_extensions :=
       {| vk_ext_buffer_device_address := kEnabledByCreateinfo;
          vk_khr_buffer_device_address := kEnabledByCreateinfo |} |}.

(** A descriptor set at index 0, a push-descriptor set and four
    push-constant bytes, with no pipeline and no shader object bound. *)
Definition bound_slot : PerSet :=
  {| bound_descriptor_set :=
       Some {| set_handle := D; IsPushDescriptor := false; GetWrites := [] |};
     dynamicOffsets := [4] |}.

Definition bindings_only_cb : vvl.CommandBuffer :=
  {| VkHandle := 1;
     lastBound := only_graphics
       {| pipeline_state := None;
          vvl.pipeline_layout := L;
          per_set := [bound_slot];
          push_descriptor_set := Some push_set;
          shader_object_states := fun _ => None |};
     push_constant_data := [1; 2; 3; 4];
     push_constant_data_ranges := Some 1%positive |}.

Definition bindings_only_snapshot : RestorablePipelineState :=
  {| cmd_buffer_ := 1;
     pipeline_bind_point_ := VK_PIPELINE_BIND_POINT_GRAPHICS;
     pipeline_ := VK_NULL_HANDLE;
     pipeline_layout := VK_NULL_HANDLE;
     descriptor_sets_ := [];
     dynamic_offsets_ := [];
     push_descriptor_set_index_ := 0;
     push_descriptor_set_writes_ := [];
     push_constants_data_ := [];
     push_constants_ranges_ := None;
     shader_objects_ := [] |}.

End Examples.

(** * Properties *)

(** ** The capture loop *)

Lemma uint32_t_small (z : Z) : 0 <= z < 2 ^ 32 → uint32_t z = z.
Proof. intros Hz. unfold uint32_t. apply Z.mod_small. exact Hz. Qed.

Lemma Create_per_set_loop_fields (slots : list PerSet) :
  ∀ (i : nat) (s : RestorablePipelineState),
    let s' := Create_per_set_loop i slots s in
    cmd_buffer_ s' = cmd_buffer_ s
    ∧ pipeline_bind_point_ s' = pipeline_bind_point_ s
    ∧ pipeline_ s' = pipeline_ s
    ∧ pipeline_layout s' = pipeline_layout s
    ∧ push_descriptor_set_writes_ s' = push_descriptor_set_writes_ s
    ∧ push_constants_data_ s' = push_constants_data_ s
    ∧ push_constants_ranges_ s' = push_constants_ranges_ s
    ∧ shader_objects_ s' = shader_objects_ s.
Proof.
  induction slots as [|slot slots IH]; intros i s; simpl.
  - repeat split.
  - specialize (IH (S i) (Create_per_set i slot s)). simpl in IH.
    destruct IH as (H1 & H2 & H3 & H4 & H5 & H6 & H7 & H8).
    rewrite H1, H2, H3, H4, H5, H6, H7, H8.
    unfold Create_per_set.
    destruct (bound_descriptor_set slot) as [bound|]; [|repeat split].
    destruct (IsPushDescriptor bound); repeat split.
Qed.

Lemma Create_per_set_loop_entries (slots : list PerSet) :
  ∀ (i : nat) (s : RestorablePipelineState),
    descriptor_sets_ (Create_per_set_loop i slots s)
    = descriptor_sets_ s ++ (fst <$> per_set_entries i slots)
    ∧ dynamic_offsets_ (Create_per_set_loop i slots s)
      = dynamic_offsets_ s ++ (snd <$> per_set_entries i slots).
Proof.
  induction slots as [|slot slots IH]; intros i s; simpl.
  - rewrite !app_nil_r. split; reflexivity.
  - destruct (IH (S i) (Create_per_set i slot s)) as [Hsets Hoffs].
    rewrite Hsets, Hoffs. unfold Create_per_set.
    destruct (bound_descriptor_set slot) as [bound|]; [|split; reflexivity].
    destruct (IsPushDescriptor bound); simpl;
      rewrite <- !app_assoc; split; reflexivity.
Qed.

(** Every recorded entry comes from a slot with a bound set object, and
    carries that object's handle and the slot's dynamic offsets. *)
Lemma per_set_entries_origin (slots : list PerSet) :
  ∀ (i k : nat) h idx offs,
    per_set_entries i slots !! k = Some (h, idx, offs) →
    ∃ (j : nat) slot bound,
      slots !! j = Some slot
      ∧ bound_descriptor_set slot = Some bound
      ∧ h = set_handle bound
      ∧ idx = uint32_t (Z.of_nat (i + j))
      ∧ offs = dynamicOffsets slot.
Proof.
  induction slots as [|slot slots IH]; intros i k h idx offs Hk; simpl in Hk.
  - discriminate.
  - destruct (bound_descriptor_set slot) as [bound|] eqn:Hbound.
    + destruct k as [|k]; simpl in Hk.
      * injection Hk as <- <- <-. exists 0%nat, slot, bound.
        rewrite Nat.add_0_r. repeat split; assumption.
      * destruct (IH _ _ _ _ _ Hk) as (j & slot' & bound' & Hj & Hb & -> & -> & ->).
        exists (S j), slot', bound'. repeat split; try assumption.
        f_equal. lia.
    + destruct (IH _ _ _ _ _ Hk) as (j & slot' & bound' & Hj & Hb & -> & -> & ->).
      exists (S j), slot', bound'. repeat split; try assumption.
      f_equal. lia.
Qed.

Lemma per_set_entries_lower (slots : list PerSet) :
  ∀ (i k : nat) h idx offs,
    Z.of_nat (i + length slots) <= 2 ^ 32 →
    per_set_entries i slots !! k = Some (h, idx, offs) →
    Z.of_nat i <= idx < Z.of_nat (i + length slots).
Proof.
  intros i k h idx offs Hlen Hk.
  destruct (per_set_entries_origin _ _ _ _ _ _ Hk)
    as (j & slot & bound & Hj & _ & _ & -> & _).
  apply lookup_lt_Some in Hj.
  rewrite uint32_t_small; lia.
Qed.

(** The recorded set indices increase strictly along the list. *)
Lemma per_set_entries_increasing (slots : list PerSet) :
  ∀ (i a b : nat) h1 idx1 offs1 h2 idx2 offs2,
    Z.of_nat (i + length slots) <= 2 ^ 32 →
    per_set_entries i slots !! a = Some (h1, idx1, offs1) →
    per_set_entries i slots !! b = Some (h2, idx2, offs2) →
    (a < b)%nat → idx1 < idx2.
Proof.
  induction slots as [|slot slots IH];
    intros i a b h1 idx1 offs1 h2 idx2 offs2 Hlen Ha Hb Hab; simpl in *.
  - discriminate.
  - assert (Hlen' : Z.of_nat (S i + length slots) <= 2 ^ 32) by lia.
    destruct (bound_descriptor_set slot) as [bound|].
    + destruct b as [|b]; [lia|]. simpl in Hb.
      destruct a as [|a]; simpl in Ha.
      * injection Ha as <- <- <-.
        pose proof (per_set_entries_lower _ _ _ _ _ _ Hlen' Hb).
        rewrite uint32_t_small; lia.
      * eapply (IH (S i) a b); eauto. lia.
    + eapply (IH (S i) a b); eauto.
Qed.

(** ** What Create records *)

Lemma Create_bind_point cb bp s :
  Create new_state cb bp = Some s →
  ∃ lv, ConvertToLvlBindPoint bp = Some lv.
Proof.
  unfold Create. destruct (ConvertToLvlBindPoint bp) as [lv|]; [eauto|].
  simpl. discriminate.
Qed.

Lemma Create_bound_pipeline cb bp lv p :
  ConvertToLvlBindPoint bp = Some lv →
  pipeline_state (lastBound cb lv) = Some p →
  ∃ s, Create new_state cb bp = Some s
    ∧ cmd_buffer_ s = VkHandle cb
    ∧ pipeline_bind_point_ s = bp
    ∧ pipeline_ s = pipeline_handle p
    ∧ pipeline_layout s = vvl.pipeline_layout (lastBound cb lv)
    ∧ descriptor_sets_ s = fst <$> per_set_entries 0 (per_set (lastBound cb lv))
    ∧ dynamic_offsets_ s = snd <$> per_set_entries 0 (per_set (lastBound cb lv))
    ∧ push_descriptor_set_writes_ s
      = from_option GetWrites [] (push_descriptor_set (lastBound cb lv))
    ∧ (push_constants_data_ s, push_constants_ranges_ s)
      = (if decide (push_constant_ranges (PipelineLayoutState p)
                    = push_constant_data_ranges cb)
         then (push_constant_data cb, push_constant_ranges (PipelineLayoutState p))
         else ([], None))
    ∧ shader_objects_ s = [].
Proof.
  intros Hlv Hp. unfold Create. rewrite Hlv. simpl. rewrite Hp.
  set (s0 := set_pipeline_layout _ _).
  pose proof (Create_per_set_loop_fields (per_set (lastBound cb lv)) 0 s0)
    as (H1 & H2 & H3 & H4 & H5 & H6 & H7 & H8).
  pose proof (Create_per_set_loop_entries (per_set (lastBound cb lv)) 0 s0)
    as (Hsets & Hoffs).
  set (s1 := Create_per_set_loop 0 _ s0) in *.
  assert (Hw : ∀ s2,
    s2 = match push_descriptor_set (lastBound cb lv) with
         | Some pushed => set_push_descriptor_set_writes_ (GetWrites pushed) s1
         | None => s1
         end →
    cmd_buffer_ s2 = VkHandle cb
    ∧ pipeline_bind_point_ s2 = bp
    ∧ pipeline_ s2 = pipeline_handle p
    ∧ pipeline_layout s2 = vvl.pipeline_layout (lastBound cb lv)
    ∧ descriptor_sets_ s2 = fst <$> per_set_entries 0 (per_set (lastBound cb lv))
    ∧ dynamic_offsets_ s2 = snd <$> per_set_entries 0 (per_set (lastBound cb lv))
    ∧ push_descriptor_set_writes_ s2
      = from_option GetWrites [] (push_descriptor_set (lastBound cb lv))
    ∧ push_constants_data_ s2 = []
    ∧ push_constants_ranges_ s2 = None
    ∧ shader_objects_ s2 = []).
  { intros s2 ->.
    destruct (push_descriptor_set (lastBound cb lv)) as [pushed|]; simpl;
      rewrite ?H1, ?H2, ?H3, ?H4, ?H5, ?H6, ?H7, ?H8, ?Hsets, ?Hoffs;
      repeat split. }
  specialize (Hw _ eq_refl).
  destruct Hw as (W1 & W2 & W3 & W4 & W5 & W6 & W7 & W8 & W9 & W10).
  destruct (decide (push_constant_ranges (PipelineLayoutState p)
                    = push_constant_data_ranges cb)) as [Heq|Hne];
    eexists; (split; [reflexivity|]); simpl;
    rewrite ?W1, ?W2, ?W3, ?W4, ?W5, ?W6, ?W7, ?W8, ?W9, ?W10;
    repeat split.
Qed.

Lemma Create_no_pipeline cb bp lv :
  ConvertToLvlBindPoint bp = Some lv →
  pipeline_state (lastBound cb lv) = None →
  ∃ s, Create new_state cb bp = Some s
    ∧ cmd_buffer_ s = VkHandle cb
    ∧ pipeline_bind_point_ s = bp
    ∧ pipeline_ s = VK_NULL_HANDLE
    ∧ descriptor_sets_ s = []
    ∧ dynamic_offsets_ s = []
    ∧ push_descriptor_set_writes_ s = []
    ∧ push_constants_data_ s = []
    ∧ shader_objects_ s = captured_shader_objects (lastBound cb lv) lv.
Proof.
  intros Hlv Hp. unfold Create. rewrite Hlv. simpl. rewrite Hp.
  destruct lv; simpl.
  - eexists. split; [reflexivity|]. repeat split.
  - destruct (GetShaderState (lastBound cb BindPoint_Compute) COMPUTE);
      eexists; (split; [reflexivity|]); repeat split.
  - eexists. split; [reflexivity|]. repeat split.
Qed.

(** Capture never fails on a bind point that names a binding-table slot. *)
Lemma Create_defined cb bp lv :
  ConvertToLvlBindPoint bp = Some lv → is_Some (Create new_state cb bp).
Proof.
  intros Hlv. destruct (pipeline_state (lastBound cb lv)) as [p|] eqn:Hp.
  - destruct (Create_bound_pipeline cb bp lv p Hlv Hp) as (s & -> & _). eauto.
  - destruct (Create_no_pipeline cb bp lv Hlv Hp) as (s & -> & _). eauto.
Qed.

(** ** What Restore issues *)

Lemma Restore_descriptor_sets_binds (s : RestorablePipelineState) entries :
  ∀ (i : nat) cmds,
    Restore_descriptor_sets s i entries = Some cmds →
    Forall (λ c, is_bind_descriptor_sets c = true) cmds
    ∧ length cmds = length (filter (λ e, fst e ≠ VK_NULL_HANDLE) entries).
Proof.
  induction entries as [|[descriptor_set set_index] entries IH];
    intros i cmds H; simpl in H.
  - injection H as <-. split; [constructor|reflexivity].
  - destruct (Restore_descriptor_sets s (S i) entries) as [rest|] eqn:Hrest;
      [|destruct (decide (descriptor_set ≠ VK_NULL_HANDLE));
        [destruct (dynamic_offsets_ s !! i)|]; discriminate].
    destruct (IH _ _ Hrest) as [Hall Hlen].
    rewrite filter_cons. simpl.
    destruct (decide (descriptor_set ≠ VK_NULL_HANDLE)) as [Hnz|Hz].
    + destruct (dynamic_offsets_ s !! i) as [offsets|]; [|discriminate].
      simpl in H. injection H as <-. split.
      * constructor; [reflexivity|assumption].
      * rewrite decide_True by exact Hnz. simpl. rewrite Hlen. reflexivity.
    + simpl in H. injection H as <-. rewrite decide_False by exact Hz.
      split; assumption.
Qed.

Lemma Restore_descriptor_sets_defined (s : RestorablePipelineState) entries :
  ∀ (i : nat),
    (i + length entries <= length (dynamic_offsets_ s))%nat →
    is_Some (Restore_descriptor_sets s i entries).
Proof.
  induction entries as [|[descriptor_set set_index] entries IH];
    intros i Hlen; simpl in *.
  - eauto.
  - destruct (IH (S i)) as [rest ->]; [lia|].
    destruct (decide (descriptor_set ≠ VK_NULL_HANDLE)); [|simpl; eauto].
    destruct (lookup_lt_is_Some_2 (dynamic_offsets_ s) i) as [offsets ->]; [lia|].
    simpl. eauto.
Qed.

Lemma Restore_push_constants_eq (s : RestorablePipelineState) ranges :
  Restore_push_constants s ranges
  = reissued_push_constants s <$> filter (λ r, size r ≠ 0) ranges.
Proof.
  induction ranges as [|r ranges IH]; simpl; [reflexivity|].
  rewrite filter_cons.
  destruct (decide (size r = 0)) as [Hz|Hnz].
  - rewrite decide_False by (intros H; apply H; exact Hz). exact IH.
  - rewrite decide_True by exact Hnz. rewrite fmap_cons, IH. reflexivity.
Qed.

Lemma Restore_push_constants_kind (s : RestorablePipelineState) ranges :
  Forall (λ c, is_push_constants c = true) (Restore_push_constants s ranges).
Proof.
  induction ranges as [|r ranges IH]; simpl; [constructor|].
  destruct (decide (size r = 0)); [assumption|].
  constructor; [reflexivity|assumption].
Qed.

Lemma push_constant_cmds_of_kind store s cmds :
  push_constant_cmds_of store s cmds →
  Forall (λ c, is_push_constants c = true) cmds.
Proof.
  intros [Hempty|ranges Hdata Hranges]; [constructor|].
  apply Restore_push_constants_kind.
Qed.

(** The shape of every command sequence [Restore] returns. *)
Lemma Restore_inv store (s : RestorablePipelineState) cmds :
  Restore store s = Some cmds →
  (pipeline_ s = VK_NULL_HANDLE ∧ cmds = Restore_shader_objects s)
  ∨ (pipeline_ s ≠ VK_NULL_HANDLE
     ∧ ∃ set_cmds pc_cmds,
         Restore_descriptor_sets s 0 (descriptor_sets_ s) = Some set_cmds
         ∧ push_constant_cmds_of store s pc_cmds
         ∧ cmds = CmdBindPipeline (cmd_buffer_ s) (pipeline_bind_point_ s)
                    (pipeline_ s)
                  :: set_cmds ++ Restore_push_descriptor_set s ++ pc_cmds
                     ++ Restore_shader_objects s).
Proof.
  unfold Restore. intros H.
  destruct (decide (pipeline_ s ≠ VK_NULL_HANDLE)) as [Hp|Hp].
  - right. split; [exact Hp|]. unfold Restore_pipeline in H.
    assert (Hsets :
      match descriptor_sets_ s with
      | [] => Some []
      | _ :: _ => Restore_descriptor_sets s 0 (descriptor_sets_ s)
      end = Restore_descriptor_sets s 0 (descriptor_sets_ s)).
    { destruct (descriptor_sets_ s); reflexivity. }
    rewrite Hsets in H.
    destruct (Restore_descriptor_sets s 0 (descriptor_sets_ s))
      as [set_cmds|]; [|discriminate].
    simpl in H. exists set_cmds.
    destruct (push_constants_data_ s) as [|byte bytes] eqn:Hdata.
    + simpl in H. injection H as <-. exists []. split; [reflexivity|].
      split; [constructor; exact Hdata|].
      simpl. rewrite <- !app_assoc. reflexivity.
    + destruct (deref store (push_constants_ranges_ s)) as [ranges|] eqn:Hr;
        [|discriminate].
      simpl in H. injection H as <-.
      exists (Restore_push_constants s ranges). split; [reflexivity|].
      split; [apply bytes_captured; [rewrite Hdata; discriminate|exact Hr]|].
      simpl. rewrite <- !app_assoc. reflexivity.
  - left. simpl in H. injection H as <-. split; [|reflexivity].
    destruct (decide (pipeline_ s = VK_NULL_HANDLE)) as [Heq|Hne];
      [exact Heq|contradiction].
Qed.

(** [Restore] returns whenever the dynamic offsets cover the recorded
    sets and the captured ranges pointer, if it is needed, is live. *)
Lemma Restore_defined store (s : RestorablePipelineState) :
  (length (descriptor_sets_ s) <= length (dynamic_offsets_ s))%nat →
  (push_constants_data_ s ≠ [] →
   is_Some (deref store (push_constants_ranges_ s))) →
  is_Some (Restore store s).
Proof.
  intros Hlen Hranges. unfold Restore.
  destruct (decide (pipeline_ s ≠ VK_NULL_HANDLE)); [|simpl; eauto].
  unfold Restore_pipeline.
  destruct (Restore_descriptor_sets_defined s (descriptor_sets_ s) 0)
    as [set_cmds Hsets]; [simpl; lia|].
  assert (Hguard :
    match descriptor_sets_ s with
    | [] => Some []
    | _ :: _ => Restore_descriptor_sets s 0 (descriptor_sets_ s)
    end = Some set_cmds).
  { rewrite <- Hsets. destruct (descriptor_sets_ s); reflexivity. }
  rewrite Hguard. simpl.
  destruct (push_constants_data_ s) as [|byte bytes]; [simpl; eauto|].
  destruct Hranges as [ranges ->]; [discriminate|]. simpl. eauto.
Qed.

(** ** The diagnostic descriptor binder *)

(** C4: for a command index and an error-logger index below the slot
    count, both assertions pass and the binder issues one descriptor-set
    bind, at the diagnostic set index, of the shared descriptor set with
    two dynamic offsets, each its index times [sizeof(uint32_t)] in 32-bit
    arithmetic; when the slot count times the word size fits 32 bits the
    offsets are the exact products. *)
Theorem BindValidationCmdsCommonDescSet_offsets
    (indices_count kDiagCommonDescriptorSet : Z)
    (cmd_buffer_state : gpuav.CommandBuffer) (bind_point : VkPipelineBindPoint)
    (layout : VkPipelineLayout) (cmd_index error_logger_index : Z) :
  0 <= cmd_index < indices_count →
  0 <= error_logger_index < indices_count →
  BindValidationCmdsCommonDescSet indices_count kDiagCommonDescriptorSet
    cmd_buffer_state bind_point layout cmd_index error_logger_index
  = Some [CmdBindDescriptorSets (cmd_VkHandle cmd_buffer_state) bind_point
            layout kDiagCommonDescriptorSet 1
            [GetValidationCmdCommonDescriptorSet cmd_buffer_state] 2
            [uint32_t (cmd_index * sizeof_uint32_t);
             uint32_t (error_logger_index * sizeof_uint32_t)]]
  ∧ (indices_count * sizeof_uint32_t <= 2 ^ 32 →
     uint32_t (cmd_index * sizeof_uint32_t) = cmd_index * sizeof_uint32_t
     ∧ uint32_t (error_logger_index * sizeof_uint32_t)
       = error_logger_index * sizeof_uint32_t).
Proof.
  intros Hcmd Herr. split.
  - unfold BindValidationCmdsCommonDescSet.
    destruct (Z.ltb_spec cmd_index indices_count) as [_|Hge]; [|lia].
    destruct (Z.ltb_spec error_logger_index indices_count) as [_|Hge]; [|lia].
    reflexivity.
  - intros Hfit. unfold sizeof_uint32_t in *.
    split; apply uint32_t_small; lia.
Qed.

Lemma BindValidationCmdsCommonDescSet_offsets_witness :
  BindValidationCmdsCommonDescSet 8192 0 Examples.diag_cmd_buffer
    VK_PIPELINE_BIND_POINT_COMPUTE Examples.L 3 5
  = Some [CmdBindDescriptorSets 1 VK_PIPELINE_BIND_POINT_COMPUTE Examples.L 0 1
            [500] 2 [12; 20]].
Proof.
  destruct (BindValidationCmdsCommonDescSet_offsets 8192 0
              Examples.diag_cmd_buffer VK_PIPELINE_BIND_POINT_COMPUTE
              Examples.L 3 5) as [Hbind _]; [lia | lia |].
  exact Hbind.
Defined.

(** An index that is not below the slot count fails the assertion. *)
Lemma BindValidationCmdsCommonDescSet_out_of_range
    (indices_count kDiagCommonDescriptorSet : Z)
    (cmd_buffer_state : gpuav.CommandBuffer) (bind_point : VkPipelineBindPoint)
    (layout : VkPipelineLayout) (cmd_index error_logger_index : Z) :
  indices_count <= cmd_index ∨ indices_count <= error_logger_index →
  BindValidationCmdsCommonDescSet indices_count kDiagCommonDescriptorSet
    cmd_buffer_state bind_point layout cmd_index error_logger_index = None.
Proof.
  intros Hout. unfold BindValidationCmdsCommonDescSet.
  destruct (Z.ltb_spec cmd_index indices_count); [|reflexivity].
  destruct (Z.ltb_spec error_logger_index indices_count); [|reflexivity].
  lia.
Qed.

(** ** The address resolver *)

(** C3: the resolver takes the core path when the API version is at
    least 1.2, otherwise the EXT path when that extension is enabled,
    otherwise the KHR path when that extension is enabled, and otherwise
    makes no query and returns 0; it makes at most one query and its
    answer is that of the query; with every tier available it makes the
    core query only. *)
Theorem GetBufferDeviceAddress_priority
    (Dispatch : AddressQuery → VkDeviceAddress) (validator : Validator)
    (buffer : VkBuffer) (loc : Location) :
  let ext := IsExtEnabled (vk_ext_buffer_device_address (device_extensions validator)) in
  let khr := IsExtEnabled (vk_khr_buffer_device_address (device_extensions validator)) in
  let core := GetBufferDeviceAddressCore (device validator) buffer in
  let result := GetBufferDeviceAddress Dispatch validator buffer loc in
  (VK_API_VERSION_1_2 <= api_version validator →
   result = ([core], Dispatch core))
  ∧ (api_version validator < VK_API_VERSION_1_2 → ext = true →
     result = ([GetBufferDeviceAddressEXT (device validator) buffer],
               Dispatch (GetBufferDeviceAddressEXT (device validator) buffer)))
  ∧ (api_version validator < VK_API_VERSION_1_2 → ext = false → khr = true →
     result = ([GetBufferDeviceAddressKHR (device validator) buffer],
               Dispatch (GetBufferDeviceAddressKHR (device validator) buffer)))
  ∧ (api_version validator < VK_API_VERSION_1_2 → ext = false → khr = false →
     result = ([], 0))
  ∧ (VK_API_VERSION_1_2 <= api_version validator → ext = true → khr = true →
     ∀ q, q ∈ fst result → q = core).
Proof.
  intros ext khr core result. subst ext khr core result.
  unfold GetBufferDeviceAddress.
  destruct (Z.leb_spec VK_API_VERSION_1_2 (api_version validator)) as [Hge|Hlt].
  - repeat split; try (intros; lia); try reflexivity.
    intros _ _ _ q Hq. simpl in Hq. apply list_elem_of_singleton in Hq. exact Hq.
  - repeat split; try (intros; lia).
    + intros _ ->. reflexivity.
    + intros _ -> ->. reflexivity.
    + intros _ -> ->. reflexivity.
Qed.

Lemma GetBufferDeviceAddress_priority_witness :
  GetBufferDeviceAddress (λ _, 4096) Examples.core_validator 77 0
  = ([GetBufferDeviceAddressCore 9 77], 4096).
Proof.
  destruct (GetBufferDeviceAddress_priority (λ _, 4096)
              Examples.core_validator 77 0) as [Hcore _].
  apply Hcore. vm_compute. discriminate.
Defined.

(** ** The two variants of a snapshot *)

(** C6: with no pipeline bound, capture succeeds and records no pipeline;
    on the graphics bind point it records all bound graphics-stage shader
    objects, on the compute bind point the bound compute shader object if
    there is one and nothing otherwise, on any other bind point no shader
    object. *)
Theorem Create_shader_objects
    (cb : vvl.CommandBuffer) (bp : VkPipelineBindPoint) (lv : LvlBindPoint) :
  ConvertToLvlBindPoint bp = Some lv →
  pipeline_state (lastBound cb lv) = None →
  ∃ s, Create new_state cb bp = Some s
    ∧ pipeline_ s = VK_NULL_HANDLE
    ∧ shader_objects_ s
      = match lv with
        | BindPoint_Graphics => GetAllBoundGraphicsShaders (lastBound cb lv)
        | BindPoint_Compute =>
            match GetShaderState (lastBound cb lv) COMPUTE with
            | Some compute_shader => [compute_shader]
            | None => []
            end
        | BindPoint_Ray_Tracing => []
        end
    ∧ (∀ shader, shader ∈ GetAllBoundGraphicsShaders (lastBound cb lv) ↔
         ∃ stage, stage ∈ graphics_stages
                  ∧ GetShaderState (lastBound cb lv) stage = Some shader).
Proof.
  intros Hlv Hp.
  destruct (Create_no_pipeline cb bp lv Hlv Hp)
    as (s & Hs & _ & _ & Hpipe & _ & _ & _ & _ & Hshaders).
  exists s. split; [exact Hs|]. split; [exact Hpipe|].
  split; [rewrite Hshaders; destruct lv; reflexivity|].
  intros shader. unfold GetAllBoundGraphicsShaders. apply list_elem_of_omap.
Qed.

Lemma Create_shader_objects_witness :
  ∃ s, Create new_state Examples.shader_object_cb VK_PIPELINE_BIND_POINT_GRAPHICS
       = Some s
    ∧ shader_objects_ s = [Examples.vertex_shader; Examples.fragment_shader].
Proof.
  destruct (Create_shader_objects Examples.shader_object_cb
              VK_PIPELINE_BIND_POINT_GRAPHICS BindPoint_Graphics)
    as (s & Hs & _ & Hshaders & _); [reflexivity | reflexivity |].
  exists s. split; [exact Hs | exact Hshaders].
Defined.

(** Capture fills at most one of the two variants. *)
Lemma Create_not_both (cb : vvl.CommandBuffer) (bp : VkPipelineBindPoint)
    (s : RestorablePipelineState) :
  Create new_state cb bp = Some s →
  ¬ (pipeline_variant_populated s ∧ shader_variant_populated s).
Proof.
  intros Hs. unfold pipeline_variant_populated, shader_variant_populated.
  destruct (Create_bind_point cb bp s Hs) as [lv Hlv].
  destruct (pipeline_state (lastBound cb lv)) as [p|] eqn:Hp.
  - destruct (Create_bound_pipeline cb bp lv p Hlv Hp)
      as (s' & Hs' & _ & _ & _ & _ & _ & _ & _ & _ & Hshaders).
    rewrite Hs in Hs'. injection Hs' as <-.
    intros [_ Hpop]. apply Hpop. exact Hshaders.
  - destruct (Create_no_pipeline cb bp lv Hlv Hp)
      as (s' & Hs' & _ & _ & Hpipe & _).
    rewrite Hs in Hs'. injection Hs' as <-.
    intros [Hpop _]. apply Hpop. exact Hpipe.
Qed.

(** C5, as the code has it: a snapshot produced by capture never has
    both a non-null pipeline handle and a non-empty shader-object list.
    The pipeline variant is populated exactly when a pipeline state
    object with a non-null handle is bound; the shader-object variant
    exactly when no pipeline is bound and a shader object of one of the
    bind point's stages is bound.  Neither is populated otherwise,
    whatever descriptor sets, push descriptors or push constants the
    command buffer holds. *)
Theorem Create_mutual_exclusion
    (cb : vvl.CommandBuffer) (bp : VkPipelineBindPoint) (lv : LvlBindPoint)
    (s : RestorablePipelineState) :
  ConvertToLvlBindPoint bp = Some lv →
  Create new_state cb bp = Some s →
  ¬ (pipeline_variant_populated s ∧ shader_variant_populated s)
  ∧ (pipeline_variant_populated s ↔
       ∃ p, pipeline_state (lastBound cb lv) = Some p
            ∧ pipeline_handle p ≠ VK_NULL_HANDLE)
  ∧ (shader_variant_populated s ↔
       pipeline_state (lastBound cb lv) = None
       ∧ ∃ stage shader,
           stage ∈ stages_of lv
           ∧ GetShaderState (lastBound cb lv) stage = Some shader).
Proof.
  intros Hlv Hs. split; [exact (Create_not_both cb bp s Hs)|].
  unfold pipeline_variant_populated, shader_variant_populated.
  destruct (pipeline_state (lastBound cb lv)) as [p|] eqn:Hp.
  - destruct (Create_bound_pipeline cb bp lv p Hlv Hp)
      as (s' & Hs' & _ & _ & Hpipe & _ & _ & _ & _ & _ & Hshaders).
    rewrite Hs in Hs'. injection Hs' as <-. split.
    + rewrite Hpipe. split.
      * intros Hne. exists p. split; [reflexivity | exact Hne].
      * intros (p' & Hp' & Hne). injection Hp' as <-. exact Hne.
    + rewrite Hshaders. split.
      * intros Hne. contradiction.
      * intros [Hnone _]. discriminate.
  - destruct (Create_no_pipeline cb bp lv Hlv Hp)
      as (s' & Hs' & _ & _ & Hpipe & _ & _ & _ & _ & Hshaders).
    rewrite Hs in Hs'. injection Hs' as <-. split.
    + rewrite Hpipe. split.
      * intros Hne. contradiction.
      * intros (p' & Hp' & _). discriminate.
    + rewrite Hshaders. split.
      * intros Hne. split; [reflexivity|].
        destruct lv; simpl in Hne |- *.
        -- destruct (GetAllBoundGraphicsShaders (lastBound cb BindPoint_Graphics))
             as [|shader shaders] eqn:Hall; [contradiction|].
           assert (Hin : shader ∈ GetAllBoundGraphicsShaders
                                    (lastBound cb BindPoint_Graphics))
             by (rewrite Hall; apply list_elem_of_here).
           apply list_elem_of_omap in Hin as (stage & Hstage & Hstate).
           exists stage, shader. split; assumption.
        -- destruct (GetShaderState (lastBound cb BindPoint_Compute) COMPUTE)
             as [shader|] eqn:Hstate; [|contradiction].
           exists COMPUTE, shader. split; [apply list_elem_of_here | exact Hstate].
        -- contradiction.
      * intros (_ & stage & shader & Hstage & Hstate).
        destruct lv; simpl in Hstage |- *.
        -- assert (Hin : shader ∈ GetAllBoundGraphicsShaders
                                    (lastBound cb BindPoint_Graphics)).
           { apply list_elem_of_omap. exists stage. split; assumption. }
           intros Hnil. rewrite Hnil in Hin. inversion Hin.
        -- apply list_elem_of_singleton in Hstage. subst stage.
           rewrite Hstate. discriminate.
        -- inversion Hstage.
Qed.

Lemma Create_mutual_exclusion_witness :
  Create new_state Examples.scenario_cb VK_PIPELINE_BIND_POINT_GRAPHICS
  = Some Examples.scenario_snapshot
  ∧ ¬ (pipeline_variant_populated Examples.scenario_snapshot
       ∧ shader_variant_populated Examples.scenario_snapshot)
  ∧ pipeline_variant_populated Examples.scenario_snapshot.
Proof.
  assert (Hs : Create new_state Examples.scenario_cb VK_PIPELINE_BIND_POINT_GRAPHICS
               = Some Examples.scenario_snapshot) by reflexivity.
  split; [exact Hs|].
  destruct (Create_mutual_exclusion Examples.scenario_cb
              VK_PIPELINE_BIND_POINT_GRAPHICS BindPoint_Graphics
              Examples.scenario_snapshot eq_refl Hs) as (Hexcl & Hpipe & _).
  split; [exact Hexcl|].
  apply Hpipe. exists Examples.scenario_pipeline.
  split; [reflexivity|]. vm_compute. discriminate.
Defined.

(** A command buffer with a descriptor set, a push-descriptor set and
    push-constant bytes, but no pipeline and no shader object: it has
    bindings, and the snapshot has neither variant. *)
Lemma Create_neither_with_bindings :
  per_set (lastBound Examples.bindings_only_cb BindPoint_Graphics) !! 0%nat
  = Some Examples.bound_slot
  ∧ bound_descriptor_set Examples.bound_slot ≠ None
  ∧ push_descriptor_set (lastBound Examples.bindings_only_cb BindPoint_Graphics)
    ≠ None
  ∧ push_constant_data Examples.bindings_only_cb ≠ []
  ∧ Create new_state Examples.bindings_only_cb VK_PIPELINE_BIND_POINT_GRAPHICS
    = Some Examples.bindings_only_snapshot
  ∧ ¬ pipeline_variant_populated Examples.bindings_only_snapshot
  ∧ ¬ shader_variant_populated Examples.bindings_only_snapshot.
Proof.
  split; [reflexivity|]. split; [discriminate|]. split; [discriminate|].
  split; [discriminate|]. split; [reflexivity|].
  unfold pipeline_variant_populated, shader_variant_populated.
  split; intros Hne; apply Hne; reflexivity.
Qed.

(** ** Push constants *)

(** C2: when the ranges declared by the bound pipeline's layout differ by
    value from the ranges the command buffer last wrote, capture succeeds
    with no push-constant bytes and no ranges pointer, and restoring the
    snapshot succeeds and issues no push-constants call. *)
Theorem Create_push_constants_mismatch
    (store : RangesStore) (cb : vvl.CommandBuffer) (bp : VkPipelineBindPoint)
    (lv : LvlBindPoint) (p : Pipeline) :
  ConvertToLvlBindPoint bp = Some lv →
  pipeline_state (lastBound cb lv) = Some p →
  deref store (push_constant_ranges (PipelineLayoutState p))
  ≠ deref store (push_constant_data_ranges cb) →
  ∃ s, Create new_state cb bp = Some s
    ∧ push_constants_data_ s = []
    ∧ push_constants_ranges_ s = None
    ∧ ∃ cmds, Restore store s = Some cmds
        ∧ Forall (λ c, is_push_constants c = false) cmds.
Proof.
  intros Hlv Hp Hdiff.
  destruct (Create_bound_pipeline cb bp lv p Hlv Hp)
    as (s & Hs & _ & _ & _ & _ & Hsets & Hoffs & _ & Hpc & Hshaders).
  rewrite decide_False in Hpc by (intros Heq; apply Hdiff; rewrite Heq; reflexivity).
  injection Hpc as Hdata Hranges.
  exists s. split; [exact Hs|]. split; [exact Hdata|]. split; [exact Hranges|].
  destruct (Restore_defined store s) as [cmds Hcmds].
  { rewrite Hsets, Hoffs, !length_fmap. lia. }
  { intros Hne. contradiction. }
  exists cmds. split; [exact Hcmds|].
  destruct (Restore_inv store s cmds Hcmds)
    as [[_ ->] | (_ & set_cmds & pc_cmds & Hset & Hpcs & ->)].
  - unfold Restore_shader_objects. rewrite Hshaders. constructor.
  - destruct (Restore_descriptor_sets_binds _ _ _ _ Hset) as [Hkind _].
    destruct Hpcs as [_|ranges Hne _]; [|contradiction].
    unfold Restore_shader_objects. rewrite Hshaders. simpl. rewrite app_nil_r.
    constructor; [reflexivity|].
    apply Forall_app. split.
    + eapply Forall_impl; [exact Hkind|].
      intros c Hc. destruct c; simpl in *; congruence.
    + unfold Restore_push_descriptor_set.
      destruct (push_descriptor_set_writes_ s); repeat constructor.
Qed.

Lemma Create_push_constants_mismatch_witness :
  ∃ s, Create new_state Examples.mismatch_cb VK_PIPELINE_BIND_POINT_GRAPHICS
       = Some s
    ∧ push_constants_data_ s = []
    ∧ ∃ cmds, Restore Examples.mismatch_store s = Some cmds
        ∧ Forall (λ c, is_push_constants c = false) cmds.
Proof.
  destruct (Create_push_constants_mismatch Examples.mismatch_store
              Examples.mismatch_cb VK_PIPELINE_BIND_POINT_GRAPHICS
              BindPoint_Graphics Examples.scenario_pipeline)
    as (s & Hs & Hdata & _ & Hcmds); [reflexivity | reflexivity | |].
  - vm_compute. discriminate.
  - exists s. split; [exact Hs|]. split; [exact Hdata | exact Hcmds].
Defined.

(** Every push-constants call of a restore is the reissue of a captured
    range of non-zero size. *)
Lemma Restore_push_constants_origin store (s : RestorablePipelineState) cmds c :
  Restore store s = Some cmds →
  c ∈ cmds → is_push_constants c = true →
  ∃ ranges r,
    deref store (push_constants_ranges_ s) = Some ranges
    ∧ r ∈ ranges ∧ size r ≠ 0
    ∧ c = reissued_push_constants s r.
Proof.
  intros Hcmds Hin Hkind.
  assert (Hshader : c ∈ Restore_shader_objects s → False).
  { unfold Restore_shader_objects. destruct (shader_objects_ s); intros H.
    - inversion H.
    - apply list_elem_of_singleton in H. subst c. discriminate. }
  destruct (Restore_inv store s cmds Hcmds)
    as [[_ ->] | (_ & set_cmds & pc_cmds & Hset & Hpcs & ->)];
    [contradiction|].
  apply elem_of_cons in Hin as [-> | Hin]; [discriminate|].
  apply elem_of_app in Hin as [Hin | Hin].
  { destruct (Restore_descriptor_sets_binds _ _ _ _ Hset) as [Hall _].
    rewrite Forall_forall in Hall. specialize (Hall c Hin).
    destruct c; discriminate. }
  apply elem_of_app in Hin as [Hin | Hin].
  { unfold Restore_push_descriptor_set in Hin.
    destruct (push_descriptor_set_writes_ s); [inversion Hin|].
    apply list_elem_of_singleton in Hin. subst c. discriminate. }
  apply elem_of_app in Hin as [Hin | Hin]; [|contradiction].
  destruct Hpcs as [_|ranges _ Hranges]; [inversion Hin|].
  rewrite Restore_push_constants_eq in Hin.
  apply list_elem_of_fmap in Hin as (r & -> & Hr).
  apply list_elem_of_filter in Hr as [Hsize Hr].
  exists ranges, r. repeat split; assumption.
Qed.

(** The commands of a restore other than the leading pipeline bind and
    the closing shader bind rebind no pipeline and no shader. *)
Lemma Restore_order store (s : RestorablePipelineState) cmds :
  ¬ (pipeline_variant_populated s ∧ shader_variant_populated s) →
  Restore store s = Some cmds →
  program_bind_first cmds.
Proof.
  unfold pipeline_variant_populated, shader_variant_populated.
  intros Hexcl Hcmds i j c d Hi Hj Hc Hd.
  destruct (Restore_inv store s cmds Hcmds)
    as [[_ ->] | (Hp & set_cmds & pc_cmds & Hset & Hpcs & ->)].
  - unfold Restore_shader_objects in Hi.
    destruct (shader_objects_ s); [discriminate|].
    apply list_lookup_singleton_Some in Hi as [_ <-]. discriminate.
  - assert (Hso : shader_objects_ s = []).
    { destruct (shader_objects_ s) as [|x l] eqn:E; [reflexivity|].
      exfalso. apply Hexcl. split; [exact Hp|discriminate]. }
    unfold Restore_shader_objects in Hi, Hj. rewrite Hso in Hi, Hj.
    rewrite app_nil_r in Hi, Hj.
    assert (Htail : Forall (λ c, is_program_bind c = false)
                      (set_cmds ++ Restore_push_descriptor_set s ++ pc_cmds)).
    { apply Forall_app. split; [|apply Forall_app; split].
      - destruct (Restore_descriptor_sets_binds _ _ _ _ Hset) as [Hall _].
        eapply Forall_impl; [exact Hall|].
        intros x Hx. destruct x; simpl in Hx; try discriminate; reflexivity.
      - unfold Restore_push_descriptor_set.
        destruct (push_descriptor_set_writes_ s); repeat constructor.
      - eapply Forall_impl; [exact (push_constant_cmds_of_kind _ _ _ Hpcs)|].
        intros x Hx. destruct x; simpl in Hx; try discriminate; reflexivity. }
    destruct j as [|j].
    + destruct i as [|i]; [|lia].
      simpl in Hi. injection Hi as <-. discriminate.
    + simpl in Hj. rewrite Forall_lookup in Htail.
      specialize (Htail _ _ Hj). congruence.
Qed.

(** ** Order of the replayed commands *)

(** C7: in the commands a restore of a captured snapshot issues, no
    pipeline bind and no shader-object bind comes after a descriptor-set
    bind, a push-descriptor reissue or a push-constants call; a populated
    pipeline variant puts the pipeline bind first, and a populated
    shader-object variant issues the shader bind alone. *)
Theorem Restore_program_bind_first
    (store : RangesStore) (cb : vvl.CommandBuffer) (bp : VkPipelineBindPoint)
    (s : RestorablePipelineState) (cmds : list Cmd) :
  Create new_state cb bp = Some s →
  Restore store s = Some cmds →
  program_bind_first cmds
  ∧ (pipeline_variant_populated s →
     head cmds = Some (CmdBindPipeline (cmd_buffer_ s) (pipeline_bind_point_ s)
                         (pipeline_ s)))
  ∧ (shader_variant_populated s →
     cmds = [CmdBindShadersEXT (cmd_buffer_ s)
               (uint32_t (Z.of_nat (length (shader_objects_ s))))
               (create_info_stage <$> shader_objects_ s)
               (shader_handle <$> shader_objects_ s)]).
Proof.
  intros Hs Hcmds.
  pose proof (Create_not_both cb bp s Hs) as Hexcl.
  split; [exact (Restore_order store s cmds Hexcl Hcmds)|].
  unfold pipeline_variant_populated, shader_variant_populated in *.
  destruct (Restore_inv store s cmds Hcmds)
    as [[Hp ->] | (Hp & set_cmds & pc_cmds & _ & _ & ->)].
  - split; [intros Hne; contradiction|].
    intros Hso. unfold Restore_shader_objects.
    destruct (shader_objects_ s); [contradiction|reflexivity].
  - split; [intros _; reflexivity|].
    intros Hso. exfalso. apply Hexcl. split; assumption.
Qed.

Lemma Restore_program_bind_first_witness :
  Create new_state Examples.scenario_cb VK_PIPELINE_BIND_POINT_GRAPHICS
  = Some Examples.scenario_snapshot
  ∧ Restore Examples.scenario_store Examples.scenario_snapshot
    = Some Examples.scenario_cmds
  ∧ program_bind_first Examples.scenario_cmds.
Proof.
  assert (Hs : Create new_state Examples.scenario_cb VK_PIPELINE_BIND_POINT_GRAPHICS
               = Some Examples.scenario_snapshot) by reflexivity.
  assert (Hcmds : Restore Examples.scenario_store Examples.scenario_snapshot
                  = Some Examples.scenario_cmds) by reflexivity.
  split; [exact Hs|]. split; [exact Hcmds|].
  exact (proj1 (Restore_program_bind_first _ _ _ _ _ Hs Hcmds)).
Defined.

Lemma filter_kind_none (kind : Cmd → bool) (l : list Cmd) :
  Forall (λ c, kind c = false) l →
  filter (λ c, kind c = true) l = [].
Proof.
  induction 1 as [|x l Hx _ IH]; [reflexivity|].
  rewrite filter_cons, decide_False by congruence. exact IH.
Qed.

Lemma filter_kind_all (kind : Cmd → bool) (l : list Cmd) :
  Forall (λ c, kind c = true) l →
  filter (λ c, kind c = true) l = l.
Proof.
  induction 1 as [|x l Hx _ IH]; [reflexivity|].
  rewrite filter_cons, decide_True by exact Hx. rewrite IH. reflexivity.
Qed.

(** ** The push-constants calls of a restore *)

(** When a restore replays push constants, its push-constants calls are,
    in order, the reissues of the captured ranges of non-zero size. *)
Lemma Restore_push_constants_calls
    (store : RangesStore) (s : RestorablePipelineState) (cmds : list Cmd)
    (ranges : list VkPushConstantRange) :
  Restore store s = Some cmds →
  pipeline_ s ≠ VK_NULL_HANDLE → push_constants_data_ s ≠ [] →
  deref store (push_constants_ranges_ s) = Some ranges →
  filter (λ c, is_push_constants c = true) cmds
  = reissued_push_constants s <$> filter (λ r, size r ≠ 0) ranges.
Proof.
  intros Hcmds Hp Hdata Hranges.
  destruct (Restore_inv store s cmds Hcmds)
    as [[Hnull _] | (_ & set_cmds & pc_cmds & Hset & Hpcs & ->)];
    [contradiction|].
  destruct Hpcs as [Hempty|ranges' _ Hranges']; [contradiction|].
  rewrite Hranges in Hranges'. injection Hranges' as <-.
  rewrite filter_cons, decide_False by discriminate.
  rewrite !filter_app.
  destruct (Restore_descriptor_sets_binds _ _ _ _ Hset) as [Hall _].
  assert (Hsets : filter (λ c, is_push_constants c = true) set_cmds = []).
  { apply filter_kind_none.
    eapply Forall_impl; [exact Hall|].
    intros x Hx. destruct x; simpl in Hx; try discriminate; reflexivity. }
  assert (Hpd : filter (λ c, is_push_constants c = true)
                  (Restore_push_descriptor_set s) = []).
  { unfold Restore_push_descriptor_set.
    destruct (push_descriptor_set_writes_ s); reflexivity. }
  assert (Hso : filter (λ c, is_push_constants c = true)
                  (Restore_shader_objects s) = []).
  { unfold Restore_shader_objects. destruct (shader_objects_ s); reflexivity. }
  rewrite Hsets, Hpd, Hso, app_nil_r. simpl.
  rewrite <- Restore_push_constants_eq.
  apply filter_kind_all, Restore_push_constants_kind.
Qed.

(** C8: a restore issues no push-constants call of size 0, and when it
    replays push constants its push-constants calls are, in order, those
    of the captured ranges of non-zero size. *)
Theorem Restore_skips_zero_size
    (store : RangesStore) (s : RestorablePipelineState) (cmds : list Cmd) :
  Restore store s = Some cmds →
  (∀ cb layout stage off sz p,
     CmdPushConstants cb layout stage off sz p ∈ cmds → sz ≠ 0)
  ∧ (∀ ranges,
       pipeline_ s ≠ VK_NULL_HANDLE → push_constants_data_ s ≠ [] →
       deref store (push_constants_ranges_ s) = Some ranges →
       filter (λ c, is_push_constants c = true) cmds
       = reissued_push_constants s <$> filter (λ r, size r ≠ 0) ranges).
Proof.
  intros Hcmds. split.
  - intros cb layout stage off sz p Hin.
    destruct (Restore_push_constants_origin store s cmds _ Hcmds Hin eq_refl)
      as (ranges & r & _ & _ & Hsize & Heq).
    unfold reissued_push_constants in Heq. injection Heq as _ _ _ _ -> _.
    exact Hsize.
  - intros ranges. apply Restore_push_constants_calls. exact Hcmds.
Qed.

Lemma Restore_skips_zero_size_witness :
  Restore Examples.zero_size_store Examples.zero_size_snapshot
  = Some Examples.zero_size_cmds
  ∧ filter (λ c, is_push_constants c = true) Examples.zero_size_cmds
    = [CmdPushConstants 1 Examples.L Examples.VK_SHADER_STAGE_VERTEX_BIT 0 4
         {| ptr_array := [21; 22; 23; 24; 25; 26; 27; 28]; ptr_pos := 0 |};
       CmdPushConstants 1 Examples.L Examples.VK_SHADER_STAGE_FRAGMENT_BIT 4 4
         {| ptr_array := [21; 22; 23; 24; 25; 26; 27; 28]; ptr_pos := 0 |}].
Proof.
  assert (Hcmds : Restore Examples.zero_size_store Examples.zero_size_snapshot
                  = Some Examples.zero_size_cmds) by reflexivity.
  split; [exact Hcmds|].
  destruct (Restore_skips_zero_size _ _ _ Hcmds) as [_ Hexact].
  rewrite (Hexact _ ltac:(discriminate) ltac:(discriminate) eq_refl).
  reflexivity.
Defined.

(** C9: for every captured range of non-zero size a restore that
    replays push constants issues a push-constants call with that range's
    stage flags, offset and size whose data argument points to position 0
    of the captured byte buffer; and every push-constants call of a
    restore carries that pointer, whatever the offset of its range. *)
Theorem Restore_push_constants_pointer
    (store : RangesStore) (s : RestorablePipelineState) (cmds : list Cmd) :
  Restore store s = Some cmds →
  (∀ ranges r,
     pipeline_ s ≠ VK_NULL_HANDLE → push_constants_data_ s ≠ [] →
     deref store (push_constants_ranges_ s) = Some ranges →
     r ∈ ranges → size r ≠ 0 →
     CmdPushConstants (cmd_buffer_ s) (pipeline_layout s) (stageFlags r)
       (offset r) (size r)
       {| ptr_array := push_constants_data_ s; ptr_pos := 0 |} ∈ cmds)
  ∧ (∀ cb layout stage off sz p,
       CmdPushConstants cb layout stage off sz p ∈ cmds →
       p = {| ptr_array := push_constants_data_ s; ptr_pos := 0 |}
       ∧ ∃ ranges r,
           deref store (push_constants_ranges_ s) = Some ranges
           ∧ r ∈ ranges ∧ size r ≠ 0
           ∧ off = offset r ∧ sz = size r ∧ stage = stageFlags r).
Proof.
  intros Hcmds. split.
  - intros ranges r Hp Hdata Hranges Hr Hsize.
    assert (Hin : reissued_push_constants s r
                  ∈ filter (λ c, is_push_constants c = true) cmds).
    { rewrite (Restore_push_constants_calls store s cmds ranges)
        by assumption.
      apply list_elem_of_fmap_2, list_elem_of_filter. split; assumption. }
    apply list_elem_of_filter in Hin as [_ Hin]. exact Hin.
  - intros cb layout stage off sz p Hin.
    destruct (Restore_push_constants_origin store s cmds _ Hcmds Hin eq_refl)
      as (ranges & r & Hranges & Hr & Hsize & Heq).
    unfold reissued_push_constants in Heq. injection Heq as -> -> -> -> -> ->.
    split; [reflexivity|].
    exists ranges, r. repeat split; assumption.
Qed.

Lemma Restore_push_constants_pointer_witness :
  Restore Examples.zero_size_store Examples.zero_size_snapshot
  = Some Examples.zero_size_cmds
  ∧ CmdPushConstants 1 Examples.L Examples.VK_SHADER_STAGE_FRAGMENT_BIT 4 4
      {| ptr_array := [21; 22; 23; 24; 25; 26; 27; 28]; ptr_pos := 0 |}
    ∈ Examples.zero_size_cmds.
Proof.
  assert (Hcmds : Restore Examples.zero_size_store Examples.zero_size_snapshot
                  = Some Examples.zero_size_cmds) by reflexivity.
  split; [exact Hcmds|].
  destruct (Restore_push_constants_pointer _ _ _ Hcmds) as [Hissued _].
  refine (Hissued _
            {| stageFlags := Examples.VK_SHADER_STAGE_FRAGMENT_BIT;
               offset := 4; size := 4 |} _ _ eq_refl _ _);
    try discriminate.
  apply list_elem_of_further, list_elem_of_further, list_elem_of_here.
Defined.

(** ** Descriptor-set entries *)

(** C10, as the code has it: every entry capture records comes from a
    slot whose descriptor-set state object is present, carries that
    object's handle (null when the object's handle is null, as for a
    push-descriptor set) and sits at the position of its dynamic offsets;
    the two lists have equal length and, for at most 2^32 slots, the set
    indices increase strictly; a restore with a pipeline issues one
    descriptor-set bind per entry with a non-null handle, and no entry has
    a null handle when no bound state object has one. *)
Theorem Create_descriptor_set_entries
    (store : RangesStore) (cb : vvl.CommandBuffer) (bp : VkPipelineBindPoint)
    (lv : LvlBindPoint) (s : RestorablePipelineState) :
  ConvertToLvlBindPoint bp = Some lv →
  Z.of_nat (length (per_set (lastBound cb lv))) <= 2 ^ 32 →
  Create new_state cb bp = Some s →
  length (descriptor_sets_ s) = length (dynamic_offsets_ s)
  ∧ (∀ (k : nat) h idx,
       descriptor_sets_ s !! k = Some (h, idx) →
       ∃ slot bound,
         per_set (lastBound cb lv) !! Z.to_nat idx = Some slot
         ∧ bound_descriptor_set slot = Some bound
         ∧ h = set_handle bound
         ∧ dynamic_offsets_ s !! k = Some (dynamicOffsets slot))
  ∧ (∀ (a b : nat) h1 idx1 h2 idx2,
       (a < b)%nat →
       descriptor_sets_ s !! a = Some (h1, idx1) →
       descriptor_sets_ s !! b = Some (h2, idx2) →
       idx1 < idx2)
  ∧ (∀ cmds,
       pipeline_variant_populated s → Restore store s = Some cmds →
       length (filter (λ c, is_bind_descriptor_sets c = true) cmds)
       = length (filter (λ e, fst e ≠ VK_NULL_HANDLE) (descriptor_sets_ s)))
  ∧ ((∀ slot bound,
        slot ∈ per_set (lastBound cb lv) →
        bound_descriptor_set slot = Some bound →
        set_handle bound ≠ VK_NULL_HANDLE) →
     ∀ h idx, (h, idx) ∈ descriptor_sets_ s → h ≠ VK_NULL_HANDLE).
Proof.
  intros Hlv Hlen Hs.
  set (slots := per_set (lastBound cb lv)) in *.
  assert (Hrec : ∃ entries,
             descriptor_sets_ s = fst <$> entries
             ∧ dynamic_offsets_ s = snd <$> entries
             ∧ (pipeline_variant_populated s ∨ shader_objects_ s = [] →
                shader_objects_ s = [])
             ∧ ∀ k e, entries !! k = Some e → per_set_entries 0 slots !! k = Some e).
  { destruct (pipeline_state (lastBound cb lv)) as [p|] eqn:Hp.
    - destruct (Create_bound_pipeline cb bp lv p Hlv Hp)
        as (s' & Hs' & _ & _ & _ & _ & Hsets & Hoffs & _ & _ & Hso).
      rewrite Hs in Hs'. injection Hs' as <-.
      exists (per_set_entries 0 slots).
      split; [exact Hsets|]. split; [exact Hoffs|].
      split; [intros _; exact Hso | auto].
    - destruct (Create_no_pipeline cb bp lv Hlv Hp)
        as (s' & Hs' & _ & _ & Hpipe & Hsets & Hoffs & _ & _ & Hso).
      rewrite Hs in Hs'. injection Hs' as <-.
      exists []. split; [exact Hsets|]. split; [exact Hoffs|]. split.
      + intros [Hpop | Hempty]; [contradiction | exact Hempty].
      + intros k e Hk. discriminate. }
  destruct Hrec as (entries & Hsets & Hoffs & Hso & Hentries).
  assert (Horigin : ∀ (k : nat) h idx,
            descriptor_sets_ s !! k = Some (h, idx) →
            ∃ offs, entries !! k = Some (h, idx, offs)).
  { intros k h idx Hk. rewrite Hsets, list_lookup_fmap in Hk.
    destruct (entries !! k) as [[[h' idx'] offs]|]; [|discriminate].
    simpl in Hk. injection Hk as -> ->. eauto. }
  split; [rewrite Hsets, Hoffs, !length_fmap; reflexivity|].
  split; [|split; [|split]].
  - intros k h idx Hk. destruct (Horigin _ _ _ Hk) as [offs He].
    destruct (per_set_entries_origin _ _ _ _ _ _ (Hentries _ _ He))
      as (j & slot & bound & Hj & Hbound & -> & -> & ->).
    exists slot, bound. pose proof (lookup_lt_Some _ _ _ Hj) as Hlt.
    fold slots in Hj. simpl. rewrite uint32_t_small by (subst slots; lia).
    rewrite Nat2Z.id. repeat split; try assumption.
    rewrite Hoffs, list_lookup_fmap, He. reflexivity.
  - intros a b h1 idx1 h2 idx2 Hab Ha Hb.
    destruct (Horigin _ _ _ Ha) as [offs1 He1].
    destruct (Horigin _ _ _ Hb) as [offs2 He2].
    eapply (per_set_entries_increasing slots 0 a b); eauto.
  - intros cmds Hpop Hcmds.
    destruct (Restore_inv store s cmds Hcmds)
      as [[Hnull _] | (_ & set_cmds & pc_cmds & Hset & Hpcs & ->)];
      [contradiction|].
    destruct (Restore_descriptor_sets_binds _ _ _ _ Hset) as [Hall <-].
    unfold Restore_shader_objects. rewrite Hso by (left; exact Hpop).
    rewrite app_nil_r, filter_cons, decide_False by discriminate.
    rewrite !filter_app, !length_app.
    assert (Hsame : filter (λ c, is_bind_descriptor_sets c = true) set_cmds
                    = set_cmds).
    { apply filter_kind_all. exact Hall. }
    assert (Hpd : filter (λ c, is_bind_descriptor_sets c = true)
                    (Restore_push_descriptor_set s) = []).
    { unfold Restore_push_descriptor_set.
      destruct (push_descriptor_set_writes_ s); reflexivity. }
    assert (Hpc : filter (λ c, is_bind_descriptor_sets c = true) pc_cmds = []).
    { apply filter_kind_none.
      eapply Forall_impl; [exact (push_constant_cmds_of_kind _ _ _ Hpcs)|].
      intros x Hx. destruct x; simpl in Hx; try discriminate; reflexivity. }
    rewrite Hsame, Hpd, Hpc. simpl. lia.
  - intros Hhandles h idx Hin.
    apply list_elem_of_lookup in Hin as [k Hk].
    destruct (Horigin _ _ _ Hk) as [offs He].
    destruct (per_set_entries_origin _ _ _ _ _ _ (Hentries _ _ He))
      as (j & slot & bound & Hj & Hbound & -> & _).
    eapply Hhandles; [|exact Hbound].
    apply list_elem_of_lookup. exists j. exact Hj.
Qed.

Lemma Create_descriptor_set_entries_witness :
  Create new_state Examples.scenario_cb VK_PIPELINE_BIND_POINT_GRAPHICS
  = Some Examples.scenario_snapshot
  ∧ length (descriptor_sets_ Examples.scenario_snapshot)
    = length (dynamic_offsets_ Examples.scenario_snapshot).
Proof.
  assert (Hs : Create new_state Examples.scenario_cb VK_PIPELINE_BIND_POINT_GRAPHICS
               = Some Examples.scenario_snapshot) by reflexivity.
  split; [exact Hs|].
  refine (proj1 (Create_descriptor_set_entries Examples.scenario_store
                   Examples.scenario_cb VK_PIPELINE_BIND_POINT_GRAPHICS
                   BindPoint_Graphics _ eq_refl _ Hs)).
  vm_compute. discriminate.
Defined.

(** A bound push-descriptor set is recorded with its null handle, and the
    restore skips it: not every recorded entry has a non-null handle. *)
Lemma Create_records_null_handle :
  Create new_state Examples.push_descriptor_cb VK_PIPELINE_BIND_POINT_GRAPHICS
  = Some Examples.push_descriptor_snapshot
  ∧ descriptor_sets_ Examples.push_descriptor_snapshot = [(VK_NULL_HANDLE, 0)]
  ∧ Restore ∅ Examples.push_descriptor_snapshot
    = Some Examples.push_descriptor_cmds
  ∧ filter (λ c, is_bind_descriptor_sets c = true) Examples.push_descriptor_cmds
    = []
  ∧ ¬ (∀ cb bp s h idx,
         Create new_state cb bp = Some s →
         (h, idx) ∈ descriptor_sets_ s → h ≠ VK_NULL_HANDLE).
Proof.
  assert (Hs : Create new_state Examples.push_descriptor_cb
                 VK_PIPELINE_BIND_POINT_GRAPHICS
               = Some Examples.push_descriptor_snapshot) by reflexivity.
  split; [exact Hs|]. split; [reflexivity|]. split; [reflexivity|].
  split; [reflexivity|].
  intros Hall.
  apply (Hall _ _ _ VK_NULL_HANDLE 0 Hs); [|reflexivity].
  apply list_elem_of_here.
Qed.

(** ** Capture followed by restore *)

(** The scenario of the specification: pipeline P, layout L, set D at
    index 2 with dynamic offset [4], bytes [1,2,3,4] over the vertex range
    {0, 4}.  Restore issues exactly the pipeline bind, the descriptor-set
    bind and the push-constants call, which leave the block as it was. *)
Example scenario_capture_restore :
  Create new_state Examples.scenario_cb VK_PIPELINE_BIND_POINT_GRAPHICS
  = Some Examples.scenario_snapshot
  ∧ Restore Examples.scenario_store Examples.scenario_snapshot
    = Some Examples.scenario_cmds
  ∧ replay_push_constants Examples.scenario_cmds
      (push_constant_data Examples.scenario_cb)
    = push_constant_data Examples.scenario_cb.
Proof. repeat split. Qed.

Lemma list_inserts_take_self (l : list Z) (n : nat) :
  list_inserts 0 (take n l) l = l.
Proof.
  rewrite <- (take_drop n l) at 2.
  rewrite list_inserts_0_r by reflexivity.
  apply take_drop.
Qed.

Lemma fold_left_fixed {A B : Type} (f : A → B → A) (l : list B) (a : A) :
  Forall (λ b, f a b = a) l → fold_left f l a = a.
Proof.
  induction 1 as [|b l Hb _ IH]; simpl; [reflexivity|].
  rewrite Hb. exact IH.
Qed.

(** Replaying a restore over the captured bytes changes nothing when the
    reissued ranges all start at offset 0: there the bytes at the start of
    the buffer are the bytes of the range. *)
Lemma replay_push_constants_offset_zero
    (store : RangesStore) (s : RestorablePipelineState) (cmds : list Cmd) :
  Restore store s = Some cmds →
  (∀ ranges r,
     deref store (push_constants_ranges_ s) = Some ranges →
     r ∈ ranges → size r ≠ 0 → offset r = 0) →
  replay_push_constants cmds (push_constants_data_ s) = push_constants_data_ s.
Proof.
  intros Hcmds Hzero. unfold replay_push_constants.
  apply fold_left_fixed, Forall_forall. intros c Hin.
  destruct (is_push_constants c) eqn:Hkind;
    [|destruct c; try reflexivity; discriminate].
  destruct (Restore_push_constants_origin store s cmds c Hcmds Hin Hkind)
    as (ranges & r & Hranges & Hr & Hsize & ->).
  unfold reissued_push_constants, push_constants_effect. simpl.
  rewrite (Hzero ranges r Hranges Hr Hsize). simpl.
  apply list_inserts_take_self.
Qed.

(** C1, at a layout with two ranges: capture records the eight bytes and
    restore reissues both ranges from the start of the buffer, so that the
    fragment range {4, 4} receives bytes 1,2,3,4 in place of 5,6,7,8 and
    the push-constant block after the restore differs from the block
    before the capture. *)
Theorem Restore_push_constants_two_ranges :
  Create new_state Examples.two_ranges_cb VK_PIPELINE_BIND_POINT_GRAPHICS
  = Some Examples.two_ranges_snapshot
  ∧ Restore Examples.two_ranges_store Examples.two_ranges_snapshot
    = Some Examples.two_ranges_cmds
  ∧ replay_push_constants Examples.two_ranges_cmds
      (push_constant_data Examples.two_ranges_cb)
    = [1; 2; 3; 4; 1; 2; 3; 4]
  ∧ replay_push_constants Examples.two_ranges_cmds
      (push_constant_data Examples.two_ranges_cb)
    ≠ push_constant_data Examples.two_ranges_cb.
Proof.
  split; [reflexivity|]. split; [reflexivity|]. split; [reflexivity|].
  vm_compute. discriminate.
Qed.

(** Restore never fails on a captured snapshot whose pipeline layout
    holds a live ranges pointer. *)
Lemma Restore_after_Create_defined
    (store : RangesStore) (cb : vvl.CommandBuffer) (bp : VkPipelineBindPoint)
    (lv : LvlBindPoint) (s : RestorablePipelineState) :
  ConvertToLvlBindPoint bp = Some lv →
  (∀ p, pipeline_state (lastBound cb lv) = Some p →
        is_Some (deref store (push_constant_ranges (PipelineLayoutState p)))) →
  Create new_state cb bp = Some s →
  is_Some (Restore store s).
Proof.
  intros Hlv Hlive Hs.
  destruct (pipeline_state (lastBound cb lv)) as [p|] eqn:Hp.
  - destruct (Create_bound_pipeline cb bp lv p Hlv Hp)
      as (s' & Hs' & _ & _ & _ & _ & Hsets & Hoffs & _ & Hpc & _).
    rewrite Hs in Hs'. injection Hs' as <-.
    apply Restore_defined.
    + rewrite Hsets, Hoffs, !length_fmap. lia.
    + intros Hdata.
      destruct (decide (push_constant_ranges (PipelineLayoutState p)
                        = push_constant_data_ranges cb)).
      * injection Hpc as _ ->. apply Hlive. reflexivity.
      * injection Hpc as Hempty _. contradiction.
  - destruct (Create_no_pipeline cb bp lv Hlv Hp)
      as (s' & Hs' & _ & _ & _ & Hsets & Hoffs & _ & Hdata & _).
    rewrite Hs in Hs'. injection Hs' as <-.
    apply Restore_defined.
    + rewrite Hsets, Hoffs. simpl. lia.
    + intros Hne. contradiction.
Qed.

(** * Further properties *)

(** ** The diagnostic descriptor binder, continued *)

(** When the slot count times the word size fits 32 bits, two in-range
    pairs of indices that make the binder issue the same command are the
    same pair: distinct slots never share a dynamic offset. *)
Theorem BindValidationCmdsCommonDescSet_offsets_injective
    (indices_count kDiagCommonDescriptorSet : Z)
    (cmd_buffer_state : gpuav.CommandBuffer) (bind_point : VkPipelineBindPoint)
    (layout : VkPipelineLayout)
    (cmd_index error_logger_index other_cmd_index other_logger_index : Z) :
  indices_count * sizeof_uint32_t <= 2 ^ 32 →
  0 <= cmd_index < indices_count →
  0 <= error_logger_index < indices_count →
  0 <= other_cmd_index < indices_count →
  0 <= other_logger_index < indices_count →
  BindValidationCmdsCommonDescSet indices_count kDiagCommonDescriptorSet
    cmd_buffer_state bind_point layout cmd_index error_logger_index
  = BindValidationCmdsCommonDescSet indices_count kDiagCommonDescriptorSet
      cmd_buffer_state bind_point layout other_cmd_index other_logger_index →
  cmd_index = other_cmd_index ∧ error_logger_index = other_logger_index.
Proof.
  intros Hfit Hc He Hc' He'. unfold BindValidationCmdsCommonDescSet.
  destruct (Z.ltb_spec cmd_index indices_count) as [_|?]; [|lia].
  destruct (Z.ltb_spec error_logger_index indices_count) as [_|?]; [|lia].
  destruct (Z.ltb_spec other_cmd_index indices_count) as [_|?]; [|lia].
  destruct (Z.ltb_spec other_logger_index indices_count) as [_|?]; [|lia].
  simpl. intros Heq. injection Heq as H1 H2.
  unfold sizeof_uint32_t in *.
  change (uint32_t 4) with 4 in H1, H2.
  rewrite !uint32_t_small in H1, H2 by lia. lia.
Qed.

Lemma BindValidationCmdsCommonDescSet_offsets_injective_witness :
  (3 = 3 ∧ 5 = 5)%Z.
Proof.
  apply (BindValidationCmdsCommonDescSet_offsets_injective 8192 0
           Examples.diag_cmd_buffer VK_PIPELINE_BIND_POINT_COMPUTE Examples.L
           3 5 3 5); try (unfold sizeof_uint32_t; lia).
  reflexivity.
Defined.

(** ** The address resolver, continued *)

(** The resolver makes at most one query; it makes none exactly when the
    API version is below 1.2 and neither extension is enabled, and then
    returns 0; otherwise the address it returns is the answer to the one
    query it made, which carries the validator's device and the buffer. *)
Theorem GetBufferDeviceAddress_single_query
    (Dispatch : AddressQuery → VkDeviceAddress) (validator : Validator)
    (buffer : VkBuffer) (loc : Location) :
  let result := GetBufferDeviceAddress Dispatch validator buffer loc in
  (fst result = [] ↔
     api_version validator < VK_API_VERSION_1_2
     ∧ IsExtEnabled (vk_ext_buffer_device_address (device_extensions validator))
       = false
     ∧ IsExtEnabled (vk_khr_buffer_device_address (device_extensions validator))
       = false)
  ∧ (fst result = [] → snd result = 0)
  ∧ (∀ q, q ∈ fst result →
       fst result = [q] ∧ snd result = Dispatch q
       ∧ (q = GetBufferDeviceAddressCore (device validator) buffer
          ∨ q = GetBufferDeviceAddressEXT (device validator) buffer
          ∨ q = GetBufferDeviceAddressKHR (device validator) buffer)).
Proof.
  intros result. subst result. unfold GetBufferDeviceAddress.
  destruct (Z.leb_spec VK_API_VERSION_1_2 (api_version validator)) as [Hge|Hlt].
  - simpl. split; [split; [discriminate | intros [H _]; lia]|].
    split; [discriminate|].
    intros q Hq. apply list_elem_of_singleton in Hq. subst q. auto.
  - destruct (IsExtEnabled (vk_ext_buffer_device_address _)); simpl.
    + split; [split; [discriminate | intros (_ & H & _); discriminate]|].
      split; [discriminate|].
      intros q Hq. apply list_elem_of_singleton in Hq. subst q. auto.
    + destruct (IsExtEnabled (vk_khr_buffer_device_address _)); simpl.
      * split; [split; [discriminate | intros (_ & _ & H); discriminate]|].
        split; [discriminate|].
        intros q Hq. apply list_elem_of_singleton in Hq. subst q. auto 6.
      * split; [split; [intros _; auto | reflexivity]|].
        split; [reflexivity|].
        intros q Hq. inversion Hq.
Qed.

Lemma GetBufferDeviceAddress_single_query_witness :
  fst (GetBufferDeviceAddress (λ _, 4096) Examples.core_validator 77 0)
  = [GetBufferDeviceAddressCore 9 77]
  ∧ snd (GetBufferDeviceAddress (λ _, 4096) Examples.core_validator 77 0)
    = 4096.
Proof.
  destruct (GetBufferDeviceAddress_single_query (λ _, 4096)
              Examples.core_validator 77 0) as (_ & _ & Hone).
  destruct (Hone (GetBufferDeviceAddressCore 9 77)) as (Hq & Ha & _).
  - apply list_elem_of_here.
  - split; [exact Hq | exact Ha].
Defined.

(** ** Capture and restore never fail *)

(** On a bind point that names a binding-table slot, capture into a fresh
    snapshot succeeds (its assertion holds) and the restore of the
    snapshot is defined: it reads no dynamic-offset vector that was not
    recorded and dereferences the ranges pointer only when it is the
    layout's, provided the bound pipeline's layout holds a live one. *)
Theorem Create_then_Restore_defined
    (store : RangesStore) (cb : vvl.CommandBuffer) (bp : VkPipelineBindPoint)
    (lv : LvlBindPoint) :
  ConvertToLvlBindPoint bp = Some lv →
  (∀ p, pipeline_state (lastBound cb lv) = Some p →
        is_Some (deref store (push_constant_ranges (PipelineLayoutState p)))) →
  ∃ s cmds, Create new_state cb bp = Some s ∧ Restore store s = Some cmds.
Proof.
  intros Hlv Hlive.
  destruct (Create_defined cb bp lv Hlv) as [s Hs].
  destruct (Restore_after_Create_defined store cb bp lv s Hlv Hlive Hs)
    as [cmds Hcmds].
  exists s, cmds. split; assumption.
Qed.

Lemma Create_then_Restore_defined_witness :
  ∃ s cmds,
    Create new_state Examples.scenario_cb VK_PIPELINE_BIND_POINT_GRAPHICS = Some s
    ∧ Restore Examples.scenario_store s = Some cmds.
Proof.
  apply (Create_then_Restore_defined Examples.scenario_store
           Examples.scenario_cb VK_PIPELINE_BIND_POINT_GRAPHICS
           BindPoint_Graphics); [reflexivity|].
  intros p Hp. injection Hp as <-. vm_compute. eauto.
Defined.

(** ** The empty snapshot *)

(** A restore issues no command at all exactly when the snapshot has a
    null pipeline handle and no shader object; this holds whatever else
    the snapshot records. *)
Theorem Restore_nothing_iff
    (store : RangesStore) (s : RestorablePipelineState) :
  Restore store s = Some []
  ↔ pipeline_ s = VK_NULL_HANDLE ∧ shader_objects_ s = [].
Proof.
  split.
  - intros Hcmds.
    destruct (Restore_inv store s [] Hcmds)
      as [[Hp Heq] | (_ & set_cmds & pc_cmds & _ & _ & Heq)];
      [|discriminate].
    split; [exact Hp|].
    unfold Restore_shader_objects in Heq.
    destruct (shader_objects_ s); [reflexivity|discriminate].
  - intros [Hp Hso]. unfold Restore, Restore_shader_objects.
    rewrite Hso. rewrite decide_False by (intros Hne; apply Hne; exact Hp).
    reflexivity.
Qed.

(** When the command buffer has nothing bound for the bind point, capture
    succeeds and the restore of the snapshot issues no command. *)
Theorem Create_nothing_bound_Restore
    (store : RangesStore) (cb : vvl.CommandBuffer) (bp : VkPipelineBindPoint)
    (lv : LvlBindPoint) :
  ConvertToLvlBindPoint bp = Some lv →
  nothing_bound (lastBound cb lv) lv →
  ∃ s, Create new_state cb bp = Some s ∧ Restore store s = Some [].
Proof.
  intros Hlv [Hp Hstages].
  destruct (Create_no_pipeline cb bp lv Hlv Hp)
    as (s & Hs & _ & _ & Hpipe & _ & _ & _ & _ & Hso).
  exists s. split; [exact Hs|].
  unfold Restore, Restore_shader_objects.
  rewrite decide_False by (intros Hne; apply Hne; exact Hpipe).
  assert (Hnone : shader_objects_ s = []).
  { rewrite Hso. destruct lv; simpl in *.
    - unfold GetAllBoundGraphicsShaders.
      destruct (omap (GetShaderState (lastBound cb BindPoint_Graphics))
                  graphics_stages) as [|shader shaders] eqn:Hall;
        [reflexivity|].
      assert (Hin : shader ∈ omap
                      (GetShaderState (lastBound cb BindPoint_Graphics))
                      graphics_stages) by (rewrite Hall; apply list_elem_of_here).
      apply list_elem_of_omap in Hin as (stage & Hstage & Hstate).
      rewrite (Hstages stage Hstage) in Hstate. discriminate.
    - rewrite (Hstages COMPUTE) by apply list_elem_of_here. reflexivity.
    - reflexivity. }
  rewrite Hnone. reflexivity.
Qed.

Lemma Create_nothing_bound_Restore_witness :
  ∃ s, Create new_state Examples.scenario_cb VK_PIPELINE_BIND_POINT_COMPUTE
       = Some s
    ∧ Restore Examples.scenario_store s = Some [].
Proof.
  apply (Create_nothing_bound_Restore Examples.scenario_store
           Examples.scenario_cb VK_PIPELINE_BIND_POINT_COMPUTE
           BindPoint_Compute); [reflexivity|].
  split; [reflexivity|]. intros stage _. reflexivity.
Defined.

(** ** The order of a restore, for any snapshot *)

Lemma restore_before_same_kind (k : nat) (l : list Cmd) :
  k = 1%nat ∨ k = 3%nat →
  Forall (λ c, restore_rank c = k) l →
  StronglySorted restore_before l.
Proof.
  intros Hk Hall. induction Hall as [|c l Hc Hall IH]; [constructor|].
  apply StronglySorted_cons. split; [|exact IH].
  eapply Forall_impl; [exact Hall|].
  intros d Hd. right. split; [congruence|]. rewrite Hc. exact Hk.
Qed.

Lemma restore_before_at_most_one (l : list Cmd) :
  (length l <= 1)%nat → StronglySorted restore_before l.
Proof.
  destruct l as [|c [|d l]]; simpl; intros Hlen.
  - constructor.
  - repeat constructor.
  - lia.
Qed.

Lemma restore_before_app (k1 k2 : nat) (l1 l2 : list Cmd) :
  Forall (λ c, (restore_rank c <= k1)%nat) l1 →
  Forall (λ c, (k2 <= restore_rank c)%nat) l2 →
  (k1 < k2)%nat →
  StronglySorted restore_before l1 →
  StronglySorted restore_before l2 →
  StronglySorted restore_before (l1 ++ l2).
Proof.
  intros H1 H2 Hlt S1 S2. apply StronglySorted_app.
  split; [|split; assumption].
  rewrite Forall_forall in H1, H2.
  intros c d Hc Hd. left. specialize (H1 c Hc). specialize (H2 d Hd). lia.
Qed.

(** For any snapshot, the commands of a restore come in the order
    pipeline bind, descriptor-set binds, push-descriptor reissue,
    push-constants calls, shader-object bind; there is at most one
    pipeline bind, one push-descriptor reissue and one shader-object
    bind. *)
Theorem Restore_sorted
    (store : RangesStore) (s : RestorablePipelineState) (cmds : list Cmd) :
  Restore store s = Some cmds →
  StronglySorted restore_before cmds.
Proof.
  intros Hcmds.
  assert (Hshaders : (length (Restore_shader_objects s) <= 1)%nat
                     ∧ Forall (λ c, (4 <= restore_rank c)%nat)
                         (Restore_shader_objects s)).
  { unfold Restore_shader_objects.
    destruct (shader_objects_ s); simpl; split; try lia; repeat constructor. }
  destruct Hshaders as [Hslen Hsrank].
  destruct (Restore_inv store s cmds Hcmds)
    as [[_ ->] | (_ & set_cmds & pc_cmds & Hset & Hpcs & ->)].
  - apply restore_before_at_most_one. exact Hslen.
  - destruct (Restore_descriptor_sets_binds _ _ _ _ Hset) as [Hsets _].
    pose proof (push_constant_cmds_of_kind _ _ _ Hpcs) as Hpc.
    assert (Hsets' : Forall (λ c, restore_rank c = 1%nat) set_cmds).
    { eapply Forall_impl; [exact Hsets|].
      intros c Hc. destruct c; simpl in Hc; try discriminate; reflexivity. }
    assert (Hpc' : Forall (λ c, restore_rank c = 3%nat) pc_cmds).
    { eapply Forall_impl; [exact Hpc|].
      intros c Hc. destruct c; simpl in Hc; try discriminate; reflexivity. }
    assert (Hpd : (length (Restore_push_descriptor_set s) <= 1)%nat
                  ∧ Forall (λ c, restore_rank c = 2%nat)
                      (Restore_push_descriptor_set s)).
    { unfold Restore_push_descriptor_set.
      destruct (push_descriptor_set_writes_ s); simpl; split; try lia;
        repeat constructor. }
    destruct Hpd as [Hpdlen Hpdrank].
    change (StronglySorted restore_before
              ([CmdBindPipeline (cmd_buffer_ s) (pipeline_bind_point_ s)
                  (pipeline_ s)]
               ++ set_cmds ++ Restore_push_descriptor_set s ++ pc_cmds
               ++ Restore_shader_objects s)).
    apply (restore_before_app 0 1).
    { repeat constructor. }
    { repeat (apply Forall_app; split);
        (eapply Forall_impl; [eassumption|]); simpl; intros; lia. }
    { lia. }
    { repeat constructor. }
    apply (restore_before_app 1 2).
    { eapply Forall_impl; [exact Hsets'|]. simpl. intros; lia. }
    { repeat (apply Forall_app; split);
        (eapply Forall_impl; [eassumption|]); simpl; intros; lia. }
    { lia. }
    { apply (restore_before_same_kind 1); [left; reflexivity | exact Hsets']. }
    apply (restore_before_app 2 3).
    { eapply Forall_impl; [exact Hpdrank|]. simpl. intros; lia. }
    { repeat (apply Forall_app; split);
        (eapply Forall_impl; [eassumption|]); simpl; intros; lia. }
    { lia. }
    { apply restore_before_at_most_one. exact Hpdlen. }
    apply (restore_before_app 3 4).
    { eapply Forall_impl; [exact Hpc'|]. simpl. intros; lia. }
    { exact Hsrank. }
    { lia. }
    { apply (restore_before_same_kind 3); [right; reflexivity | exact Hpc']. }
    apply restore_before_at_most_one. exact Hslen.
Qed.

Lemma Restore_sorted_witness :
  Restore Examples.scenario_store Examples.scenario_snapshot
  = Some Examples.scenario_cmds
  ∧ StronglySorted restore_before Examples.scenario_cmds.
Proof.
  assert (Hcmds : Restore Examples.scenario_store Examples.scenario_snapshot
                  = Some Examples.scenario_cmds) by reflexivity.
  split; [exact Hcmds|].
  exact (Restore_sorted _ _ _ Hcmds).
Defined.

(** ** Which slots capture records *)

Lemma per_set_entries_complete (slots : list PerSet) :
  ∀ (i j : nat) slot bound,
    slots !! j = Some slot →
    bound_descriptor_set slot = Some bound →
    (set_handle bound, uint32_t (Z.of_nat (i + j)), dynamicOffsets slot)
    ∈ per_set_entries i slots.
Proof.
  induction slots as [|slot0 slots IH]; intros i j slot bound Hj Hbound.
  - discriminate.
  - destruct j as [|j]; simpl in Hj.
    + injection Hj as ->. simpl. rewrite Hbound, Nat.add_0_r.
      apply list_elem_of_here.
    + specialize (IH (S i) j slot bound Hj Hbound).
      replace (S i + j)%nat with (i + S j)%nat in IH by lia.
      simpl. destruct (bound_descriptor_set slot0);
        [apply list_elem_of_further|]; exact IH.
Qed.

Lemma per_set_entries_length (slots : list PerSet) :
  ∀ (i : nat),
    length (per_set_entries i slots)
    = length (filter (λ slot, is_Some (bound_descriptor_set slot)) slots).
Proof.
  induction slots as [|slot slots IH]; intros i; simpl; [reflexivity|].
  rewrite filter_cons.
  destruct (bound_descriptor_set slot) as [bound|].
  - rewrite decide_True by eauto. simpl. rewrite IH. reflexivity.
  - rewrite decide_False by (intros [x Hx]; discriminate). apply IH.
Qed.

(** With a pipeline bound, capture records every slot that holds a
    descriptor-set state object, under the slot's index (cast to 32
    bits), and nothing else: the number of recorded entries is the number
    of such slots. *)
Theorem Create_records_every_bound_slot
    (cb : vvl.CommandBuffer) (bp : VkPipelineBindPoint) (lv : LvlBindPoint)
    (p : Pipeline) (s : RestorablePipelineState) :
  ConvertToLvlBindPoint bp = Some lv →
  pipeline_state (lastBound cb lv) = Some p →
  Create new_state cb bp = Some s →
  (∀ (j : nat) slot bound,
     per_set (lastBound cb lv) !! j = Some slot →
     bound_descriptor_set slot = Some bound →
     ∃ k : nat,
       descriptor_sets_ s !! k = Some (set_handle bound, uint32_t (Z.of_nat j))
       ∧ dynamic_offsets_ s !! k = Some (dynamicOffsets slot))
  ∧ length (descriptor_sets_ s)
    = length (filter (λ slot, is_Some (bound_descriptor_set slot))
                (per_set (lastBound cb lv))).
Proof.
  intros Hlv Hp Hs.
  destruct (Create_bound_pipeline cb bp lv p Hlv Hp)
    as (s' & Hs' & _ & _ & _ & _ & Hsets & Hoffs & _).
  rewrite Hs in Hs'. injection Hs' as <-. split.
  - intros j slot bound Hj Hbound.
    pose proof (per_set_entries_complete _ 0 j slot bound Hj Hbound) as Hin.
    apply list_elem_of_lookup in Hin as [k Hk]. exists k.
    rewrite Hsets, Hoffs, !list_lookup_fmap, Hk. split; reflexivity.
  - rewrite Hsets, length_fmap. apply per_set_entries_length.
Qed.

Lemma Create_records_every_bound_slot_witness :
  Create new_state Examples.scenario_cb VK_PIPELINE_BIND_POINT_GRAPHICS
  = Some Examples.scenario_snapshot
  ∧ length (descriptor_sets_ Examples.scenario_snapshot) = 1%nat.
Proof.
  assert (Hs : Create new_state Examples.scenario_cb VK_PIPELINE_BIND_POINT_GRAPHICS
               = Some Examples.scenario_snapshot) by reflexivity.
  split; [exact Hs|].
  destruct (Create_records_every_bound_slot Examples.scenario_cb
              VK_PIPELINE_BIND_POINT_GRAPHICS BindPoint_Graphics
              Examples.scenario_pipeline _ eq_refl eq_refl Hs) as [_ Hlen].
  rewrite Hlen. reflexivity.
Defined.

(** ** The descriptor-set binds of a restore *)

Lemma Restore_descriptor_sets_exact (s : RestorablePipelineState)
    (entries : list (VkDescriptorSet * Z * list Z)) :
  ∀ (i : nat),
    (∀ (k : nat) e, entries !! k = Some e →
                    dynamic_offsets_ s !! (i + k)%nat = Some (snd e)) →
    Restore_descriptor_sets s i (fst <$> entries)
    = Some (reissued_descriptor_set (cmd_buffer_ s) (pipeline_bind_point_ s)
              (pipeline_layout s)
            <$> filter (λ e, fst (fst e) ≠ VK_NULL_HANDLE) entries).
Proof.
  induction entries as [|[[h idx] offs] entries IH]; intros i Hoffs.
  - reflexivity.
  - rewrite fmap_cons. simpl. rewrite filter_cons. simpl.
    rewrite (IH (S i)).
    2:{ intros k e Hk. specialize (Hoffs (S k) e Hk).
        replace (S i + k)%nat with (i + S k)%nat by lia. exact Hoffs. }
    destruct (decide (h ≠ VK_NULL_HANDLE)) as [Hnz|Hz].
    + specialize (Hoffs 0%nat (h, idx, offs) eq_refl).
      rewrite Nat.add_0_r in Hoffs. simpl in Hoffs. rewrite Hoffs.
      rewrite decide_True by exact Hnz. reflexivity.
    + rewrite decide_False by exact Hz. reflexivity.
Qed.

(** With a pipeline of non-null handle bound, the descriptor-set binds a
    restore of the captured snapshot issues are, in slot order, one per
    slot whose set object has a non-null handle: each binds that one set
    at the slot's index with the slot's dynamic offsets, on the captured
    command buffer and bind point, against the pipeline layout of the
    last-bound record. *)
Theorem Restore_descriptor_sets_of_Create
    (store : RangesStore) (cb : vvl.CommandBuffer) (bp : VkPipelineBindPoint)
    (lv : LvlBindPoint) (p : Pipeline) (s : RestorablePipelineState)
    (cmds : list Cmd) :
  ConvertToLvlBindPoint bp = Some lv →
  pipeline_state (lastBound cb lv) = Some p →
  pipeline_handle p ≠ VK_NULL_HANDLE →
  Create new_state cb bp = Some s →
  Restore store s = Some cmds →
  filter (λ c, is_bind_descriptor_sets c = true) cmds
  = reissued_descriptor_set (VkHandle cb) bp
      (vvl.pipeline_layout (lastBound cb lv))
    <$> filter (λ e, fst (fst e) ≠ VK_NULL_HANDLE)
          (per_set_entries 0 (per_set (lastBound cb lv))).
Proof.
  intros Hlv Hp Hhandle Hs Hcmds.
  destruct (Create_bound_pipeline cb bp lv p Hlv Hp)
    as (s' & Hs' & Hcb & Hbp & Hpipe & Hlayout & Hsets & Hoffs & _ & _ & Hso).
  rewrite Hs in Hs'. injection Hs' as <-.
  destruct (Restore_inv store s cmds Hcmds)
    as [[Hnull _] | (_ & set_cmds & pc_cmds & Hset & Hpcs & ->)].
  { rewrite Hpipe in Hnull. contradiction. }
  rewrite Hsets in Hset.
  rewrite Restore_descriptor_sets_exact in Hset.
  2:{ intros k e Hk. rewrite Hoffs, list_lookup_fmap. simpl. rewrite Hk.
      reflexivity. }
  injection Hset as <-. rewrite Hcb, Hbp, Hlayout.
  rewrite filter_cons, decide_False by discriminate.
  rewrite !filter_app.
  assert (Hpd : filter (λ c, is_bind_descriptor_sets c = true)
                  (Restore_push_descriptor_set s) = []).
  { unfold Restore_push_descriptor_set.
    destruct (push_descriptor_set_writes_ s); reflexivity. }
  assert (Hpc : filter (λ c, is_bind_descriptor_sets c = true) pc_cmds = []).
  { apply filter_kind_none.
    eapply Forall_impl; [exact (push_constant_cmds_of_kind _ _ _ Hpcs)|].
    intros x Hx. destruct x; simpl in Hx; try discriminate; reflexivity. }
  assert (Hsh : filter (λ c, is_bind_descriptor_sets c = true)
                  (Restore_shader_objects s) = []).
  { unfold Restore_shader_objects. rewrite Hso. reflexivity. }
  rewrite Hpd, Hpc, Hsh, !app_nil_r.
  apply filter_kind_all, Forall_forall. intros c Hc.
  apply list_elem_of_fmap in Hc as (e & -> & _). reflexivity.
Qed.

Lemma Restore_descriptor_sets_of_Create_witness :
  Create new_state Examples.scenario_cb VK_PIPELINE_BIND_POINT_GRAPHICS
  = Some Examples.scenario_snapshot
  ∧ Restore Examples.scenario_store Examples.scenario_snapshot
    = Some Examples.scenario_cmds
  ∧ filter (λ c, is_bind_descriptor_sets c = true) Examples.scenario_cmds
    = [CmdBindDescriptorSets 1 VK_PIPELINE_BIND_POINT_GRAPHICS Examples.L 2 1
         [Examples.D] 1 [4]].
Proof.
  assert (Hs : Create new_state Examples.scenario_cb VK_PIPELINE_BIND_POINT_GRAPHICS
               = Some Examples.scenario_snapshot) by reflexivity.
  assert (Hcmds : Restore Examples.scenario_store Examples.scenario_snapshot
                  = Some Examples.scenario_cmds) by reflexivity.
  split; [exact Hs|]. split; [exact Hcmds|].
  rewrite (Restore_descriptor_sets_of_Create Examples.scenario_store
             Examples.scenario_cb VK_PIPELINE_BIND_POINT_GRAPHICS
             BindPoint_Graphics Examples.scenario_pipeline
             Examples.scenario_snapshot Examples.scenario_cmds
             eq_refl eq_refl ltac:(discriminate) Hs Hcmds).
  reflexivity.
Defined.

(** ** The push-descriptor set *)

Lemma Create_per_set_loop_index_kept (slots : list PerSet) :
  ∀ (i : nat) (s : RestorablePipelineState),
    (∀ slot, slot ∈ slots → ¬ holds_push_descriptor slot) →
    push_descriptor_set_index_ (Create_per_set_loop i slots s)
    = push_descriptor_set_index_ s.
Proof.
  induction slots as [|slot slots IH]; intros i s Hnone; simpl; [reflexivity|].
  rewrite IH by (intros slot' Hin; apply Hnone, list_elem_of_further, Hin).
  unfold Create_per_set.
  destruct (bound_descriptor_set slot) as [bound|] eqn:Hbound; [|reflexivity].
  destruct (IsPushDescriptor bound) eqn:Hpush; [|reflexivity].
  exfalso. apply (Hnone slot); [apply list_elem_of_here|].
  exists bound. split; assumption.
Qed.

Lemma Create_per_set_loop_index_last (slots : list PerSet) :
  ∀ (i j : nat) (s : RestorablePipelineState) slot,
    slots !! j = Some slot →
    holds_push_descriptor slot →
    (∀ (k : nat) later, (j < k)%nat → slots !! k = Some later →
                        ¬ holds_push_descriptor later) →
    push_descriptor_set_index_ (Create_per_set_loop i slots s)
    = uint32_t (Z.of_nat (i + j)).
Proof.
  induction slots as [|slot0 slots IH]; intros i j s slot Hj Hpush Hlast.
  - discriminate.
  - destruct j as [|j]; simpl in Hj.
    + injection Hj as ->. simpl.
      rewrite Create_per_set_loop_index_kept.
      2:{ intros later Hin Hlater.
          apply list_elem_of_lookup in Hin as [k Hk].
          apply (Hlast (S k) later); [lia | exact Hk | exact Hlater]. }
      destruct Hpush as (bound & Hbound & His).
      unfold Create_per_set. rewrite Hbound, His. simpl.
      rewrite Nat.add_0_r. reflexivity.
    + simpl. rewrite (IH (S i) j _ slot Hj Hpush).
      * f_equal. lia.
      * intros k later Hk Hlater. apply (Hlast (S k) later); [lia|exact Hlater].
Qed.

(** With a pipeline bound, the push-descriptor index of the snapshot is
    the index (cast to 32 bits) of the last slot that holds a
    push-descriptor set, and 0 when no slot holds one. *)
Theorem Create_push_descriptor_set_index
    (cb : vvl.CommandBuffer) (bp : VkPipelineBindPoint) (lv : LvlBindPoint)
    (p : Pipeline) (s : RestorablePipelineState) :
  ConvertToLvlBindPoint bp = Some lv →
  pipeline_state (lastBound cb lv) = Some p →
  Create new_state cb bp = Some s →
  ((∀ slot, slot ∈ per_set (lastBound cb lv) → ¬ holds_push_descriptor slot) →
   push_descriptor_set_index_ s = 0)
  ∧ (∀ (j : nat) slot,
       per_set (lastBound cb lv) !! j = Some slot →
       holds_push_descriptor slot →
       (∀ (k : nat) later,
          (j < k)%nat → per_set (lastBound cb lv) !! k = Some later →
          ¬ holds_push_descriptor later) →
       push_descriptor_set_index_ s = uint32_t (Z.of_nat j)).
Proof.
  intros Hlv Hp. unfold Create. rewrite Hlv. simpl. rewrite Hp.
  set (s0 := set_pipeline_layout _ _).
  set (s1 := Create_per_set_loop 0 _ s0).
  intros Hs.
  assert (Hidx : push_descriptor_set_index_ s = push_descriptor_set_index_ s1).
  { destruct (push_descriptor_set (lastBound cb lv));
      destruct (decide (push_constant_ranges (PipelineLayoutState p)
                        = push_constant_data_ranges cb));
      injection Hs as <-; reflexivity. }
  rewrite Hidx. subst s1. split.
  - intros Hnone. rewrite Create_per_set_loop_index_kept by exact Hnone.
    reflexivity.
  - intros j slot Hj Hpush Hlast.
    rewrite (Create_per_set_loop_index_last _ 0 j s0 slot Hj Hpush Hlast).
    reflexivity.
Qed.

Lemma Create_push_descriptor_set_index_witness :
  Create new_state Examples.push_descriptor_cb VK_PIPELINE_BIND_POINT_GRAPHICS
  = Some Examples.push_descriptor_snapshot
  ∧ push_descriptor_set_index_ Examples.push_descriptor_snapshot
    = uint32_t (Z.of_nat 0).
Proof.
  assert (Hs : Create new_state Examples.push_descriptor_cb
                 VK_PIPELINE_BIND_POINT_GRAPHICS
               = Some Examples.push_descriptor_snapshot) by reflexivity.
  split; [exact Hs|].
  destruct (Create_push_descriptor_set_index Examples.push_descriptor_cb
              VK_PIPELINE_BIND_POINT_GRAPHICS BindPoint_Graphics
              Examples.scenario_pipeline _ eq_refl eq_refl Hs) as [_ Hlast].
  apply (Hlast 0%nat
           {| bound_descriptor_set := Some Examples.push_set;
              dynamicOffsets := [] |}).
  - reflexivity.
  - exists Examples.push_set. split; reflexivity.
  - intros k later Hk Hlater. destruct k as [|k]; [lia|]. discriminate.
Defined.

(** With a pipeline of non-null handle bound, a restore of the captured
    snapshot reissues push descriptors exactly when the command buffer
    has an active push-descriptor set with at least one write: then it
    issues one call carrying all those writes, at the captured
    push-descriptor index. *)
Theorem Restore_push_descriptor_of_Create
    (store : RangesStore) (cb : vvl.CommandBuffer) (bp : VkPipelineBindPoint)
    (lv : LvlBindPoint) (p : Pipeline) (s : RestorablePipelineState)
    (cmds : list Cmd) :
  ConvertToLvlBindPoint bp = Some lv →
  pipeline_state (lastBound cb lv) = Some p →
  pipeline_handle p ≠ VK_NULL_HANDLE →
  Create new_state cb bp = Some s →
  Restore store s = Some cmds →
  filter (λ c, is_push_descriptor_set c = true) cmds
  = match push_descriptor_set (lastBound cb lv) with
    | Some pushed =>
        match GetWrites pushed with
        | [] => []
        | _ :: _ =>
            [CmdPushDescriptorSetKHR (VkHandle cb) bp
               (vvl.pipeline_layout (lastBound cb lv))
               (push_descriptor_set_index_ s)
               (uint32_t (Z.of_nat (length (GetWrites pushed))))
               (GetWrites pushed)]
        end
    | None => []
    end.
Proof.
  intros Hlv Hp Hhandle Hs Hcmds.
  destruct (Create_bound_pipeline cb bp lv p Hlv Hp)
    as (s' & Hs' & Hcb & Hbp & Hpipe & Hlayout & _ & _ & Hwrites & _ & Hso).
  rewrite Hs in Hs'. injection Hs' as <-.
  destruct (Restore_inv store s cmds Hcmds)
    as [[Hnull _] | (_ & set_cmds & pc_cmds & Hset & Hpcs & ->)].
  { rewrite Hpipe in Hnull. contradiction. }
  rewrite filter_cons, decide_False by discriminate.
  rewrite !filter_app.
  destruct (Restore_descriptor_sets_binds _ _ _ _ Hset) as [Hall _].
  assert (Hsets : filter (λ c, is_push_descriptor_set c = true) set_cmds = []).
  { apply filter_kind_none.
    eapply Forall_impl; [exact Hall|].
    intros x Hx. destruct x; simpl in Hx; try discriminate; reflexivity. }
  assert (Hpc : filter (λ c, is_push_descriptor_set c = true) pc_cmds = []).
  { apply filter_kind_none.
    eapply Forall_impl; [exact (push_constant_cmds_of_kind _ _ _ Hpcs)|].
    intros x Hx. destruct x; simpl in Hx; try discriminate; reflexivity. }
  assert (Hsh : filter (λ c, is_push_descriptor_set c = true)
                  (Restore_shader_objects s) = []).
  { unfold Restore_shader_objects. rewrite Hso. reflexivity. }
  rewrite Hsets, Hpc, Hsh, !app_nil_r. simpl.
  unfold Restore_push_descriptor_set. rewrite Hwrites, Hcb, Hbp, Hlayout.
  destruct (push_descriptor_set (lastBound cb lv)) as [pushed|]; simpl;
    [|reflexivity].
  destruct (GetWrites pushed); reflexivity.
Qed.

Lemma Restore_push_descriptor_of_Create_witness :
  Create new_state Examples.push_descriptor_cb VK_PIPELINE_BIND_POINT_GRAPHICS
  = Some Examples.push_descriptor_snapshot
  ∧ Restore ∅ Examples.push_descriptor_snapshot
    = Some Examples.push_descriptor_cmds
  ∧ filter (λ c, is_push_descriptor_set c = true) Examples.push_descriptor_cmds
    = [CmdPushDescriptorSetKHR 1 VK_PIPELINE_BIND_POINT_GRAPHICS Examples.L 0 1
         [Examples.pushed_write]].
Proof.
  assert (Hs : Create new_state Examples.push_descriptor_cb
                 VK_PIPELINE_BIND_POINT_GRAPHICS
               = Some Examples.push_descriptor_snapshot) by reflexivity.
  assert (Hcmds : Restore ∅ Examples.push_descriptor_snapshot
                  = Some Examples.push_descriptor_cmds) by reflexivity.
  split; [exact Hs|]. split; [exact Hcmds|].
  rewrite (Restore_push_descriptor_of_Create ∅ Examples.push_descriptor_cb
             VK_PIPELINE_BIND_POINT_GRAPHICS BindPoint_Graphics
             Examples.scenario_pipeline Examples.push_descriptor_snapshot
             Examples.push_descriptor_cmds
             eq_refl eq_refl ltac:(discriminate) Hs Hcmds).
  reflexivity.
Defined.

(** ** Where the commands of a restore go *)

Lemma Restore_descriptor_sets_target (s : RestorablePipelineState) entries :
  ∀ (i : nat) cmds,
    Restore_descriptor_sets s i entries = Some cmds →
    Forall (λ c, cmd_commandBuffer c = cmd_buffer_ s
                 ∧ cmd_bind_point c = Some (pipeline_bind_point_ s)
                 ∧ cmd_layout c = Some (pipeline_layout s)) cmds.
Proof.
  induction entries as [|[descriptor_set set_index] entries IH];
    intros i cmds H; simpl in H.
  - injection H as <-. constructor.
  - destruct (Restore_descriptor_sets s (S i) entries) as [rest|] eqn:Hrest;
      [|destruct (decide (descriptor_set ≠ VK_NULL_HANDLE));
        [destruct (dynamic_offsets_ s !! i)|]; discriminate].
    specialize (IH _ _ Hrest).
    destruct (decide (descriptor_set ≠ VK_NULL_HANDLE)).
    + destruct (dynamic_offsets_ s !! i) as [offsets|]; [|discriminate].
      simpl in H. injection H as <-. constructor; [|exact IH].
      repeat split.
    + simpl in H. injection H as <-. exact IH.
Qed.

(** Every command a restore issues is recorded into the snapshot's
    command buffer, and uses the snapshot's bind point and layout where
    the command takes one. *)
Lemma Restore_target (store : RangesStore) (s : RestorablePipelineState)
    (cmds : list Cmd) :
  Restore store s = Some cmds →
  Forall (λ c, cmd_commandBuffer c = cmd_buffer_ s
               ∧ (∀ b, cmd_bind_point c = Some b → b = pipeline_bind_point_ s)
               ∧ (∀ l, cmd_layout c = Some l → l = pipeline_layout s)) cmds.
Proof.
  intros Hcmds.
  assert (Hsh : Forall (λ c, cmd_commandBuffer c = cmd_buffer_ s
                  ∧ (∀ b, cmd_bind_point c = Some b → b = pipeline_bind_point_ s)
                  ∧ (∀ l, cmd_layout c = Some l → l = pipeline_layout s))
                  (Restore_shader_objects s)).
  { unfold Restore_shader_objects. destruct (shader_objects_ s); constructor;
      [|constructor]. repeat split; intros x Hx; discriminate. }
  destruct (Restore_inv store s cmds Hcmds)
    as [[_ ->] | (_ & set_cmds & pc_cmds & Hset & Hpcs & ->)]; [exact Hsh|].
  constructor.
  { repeat split; intros x Hx; [injection Hx as <-; reflexivity|discriminate]. }
  repeat (apply Forall_app; split); [| | |exact Hsh].
  - eapply Forall_impl; [exact (Restore_descriptor_sets_target _ _ _ _ Hset)|].
    intros c (H1 & H2 & H3). repeat split; [exact H1| |]; intros x Hx; congruence.
  - unfold Restore_push_descriptor_set.
    destruct (push_descriptor_set_writes_ s); constructor; [|constructor].
    repeat split; intros x Hx; injection Hx as <-; reflexivity.
  - destruct Hpcs as [_|ranges _ _]; [constructor|].
    rewrite Restore_push_constants_eq. apply Forall_forall. intros c Hc.
    apply list_elem_of_fmap in Hc as (r & -> & _).
    repeat split; intros x Hx; [discriminate|injection Hx as <-; reflexivity].
Qed.

(** Every command a restore of a captured snapshot issues is recorded
    into the command buffer the snapshot was captured from; where it
    takes a bind point it takes the captured one, and where it takes a
    layout it takes the pipeline layout of the last-bound record. *)
Theorem Restore_target_of_Create
    (store : RangesStore) (cb : vvl.CommandBuffer) (bp : VkPipelineBindPoint)
    (lv : LvlBindPoint) (s : RestorablePipelineState) (cmds : list Cmd) :
  ConvertToLvlBindPoint bp = Some lv →
  Create new_state cb bp = Some s →
  Restore store s = Some cmds →
  ∀ c, c ∈ cmds →
    cmd_commandBuffer c = VkHandle cb
    ∧ (∀ b, cmd_bind_point c = Some b → b = bp)
    ∧ (∀ l, cmd_layout c = Some l →
            l = vvl.pipeline_layout (lastBound cb lv)).
Proof.
  intros Hlv Hs Hcmds c Hc.
  pose proof (Restore_target store s cmds Hcmds) as Hall.
  rewrite Forall_forall in Hall. destruct (Hall c Hc) as (H1 & H2 & H3).
  destruct (pipeline_state (lastBound cb lv)) as [p|] eqn:Hp.
  - destruct (Create_bound_pipeline cb bp lv p Hlv Hp)
      as (s' & Hs' & Hcb & Hbp & _ & Hlayout & _).
    rewrite Hs in Hs'. injection Hs' as <-.
    rewrite <- Hcb, <- Hbp, <- Hlayout. repeat split; assumption.
  - destruct (Create_no_pipeline cb bp lv Hlv Hp)
      as (s' & Hs' & Hcb & Hbp & Hpipe & _).
    rewrite Hs in Hs'. injection Hs' as <-.
    rewrite <- Hcb, <- Hbp. split; [exact H1|]. split; [exact H2|].
    intros l Hl.
    destruct (Restore_inv store s cmds Hcmds)
      as [[_ ->] | (Hne & _)]; [|contradiction].
    unfold Restore_shader_objects in Hc.
    destruct (shader_objects_ s); [inversion Hc|].
    apply list_elem_of_singleton in Hc. subst c. discriminate.
Qed.

Lemma Restore_target_of_Create_witness :
  Create new_state Examples.scenario_cb VK_PIPELINE_BIND_POINT_GRAPHICS
  = Some Examples.scenario_snapshot
  ∧ Restore Examples.scenario_store Examples.scenario_snapshot
    = Some Examples.scenario_cmds
  ∧ ∀ c, c ∈ Examples.scenario_cmds →
         cmd_commandBuffer c = VkHandle Examples.scenario_cb.
Proof.
  assert (Hs : Create new_state Examples.scenario_cb VK_PIPELINE_BIND_POINT_GRAPHICS
               = Some Examples.scenario_snapshot) by reflexivity.
  assert (Hcmds : Restore Examples.scenario_store Examples.scenario_snapshot
                  = Some Examples.scenario_cmds) by reflexivity.
  split; [exact Hs|]. split; [exact Hcmds|].
  intros c Hc.
  exact (proj1 (Restore_target_of_Create Examples.scenario_store
                  Examples.scenario_cb VK_PIPELINE_BIND_POINT_GRAPHICS
                  BindPoint_Graphics _ _ eq_refl Hs Hcmds c Hc)).
Defined.

(** ** The shader-object bind of a restore *)

Lemma length_omap_le {A B : Type} (f : A → option B) (l : list A) :
  (length (omap f l) <= length l)%nat.
Proof.
  induction l as [|x l IH]; [reflexivity|].
  cbn. destruct (f x); cbn; lia.
Qed.

(** With no pipeline bound, capture succeeds and records no descriptor
    set, no push-descriptor write and no push-constant byte, whatever the
    command buffer holds of them; the restore of the snapshot issues
    nothing when no shader object was captured, and otherwise the one
    shader bind only, whose two arrays list, in the captured order, each
    captured object's stage and handle, with the number of objects as
    count; at most seven objects are captured. *)
Theorem Restore_shader_objects_of_Create
    (store : RangesStore) (cb : vvl.CommandBuffer) (bp : VkPipelineBindPoint)
    (lv : LvlBindPoint) :
  ConvertToLvlBindPoint bp = Some lv →
  pipeline_state (lastBound cb lv) = None →
  let shaders := captured_shader_objects (lastBound cb lv) lv in
  ∃ s, Create new_state cb bp = Some s
    ∧ Restore store s
      = Some (match shaders with
              | [] => []
              | _ :: _ =>
                  [CmdBindShadersEXT (VkHandle cb) (Z.of_nat (length shaders))
                     (create_info_stage <$> shaders) (shader_handle <$> shaders)]
              end)
    ∧ (length shaders <= 7)%nat
    ∧ descriptor_sets_ s = []
    ∧ push_descriptor_set_writes_ s = []
    ∧ push_constants_data_ s = [].
Proof.
  intros Hlv Hp shaders.
  destruct (Create_no_pipeline cb bp lv Hlv Hp)
    as (s & Hs & Hcb & _ & Hpipe & Hsets & _ & Hwrites & Hdata & Hso).
  assert (Hlen : (length shaders <= 7)%nat).
  { subst shaders. destruct lv; simpl.
    - unfold GetAllBoundGraphicsShaders.
      etransitivity; [apply length_omap_le|]. reflexivity.
    - destruct (GetShaderState _ COMPUTE); simpl; lia.
    - lia. }
  exists s. split; [exact Hs|]. split; [|repeat split; assumption].
  unfold Restore, Restore_shader_objects.
  rewrite decide_False by (intros Hne; apply Hne; exact Hpipe).
  simpl. rewrite Hso, Hcb. fold shaders.
  destruct shaders as [|shader rest] eqn:Hshaders; [reflexivity|].
  rewrite uint32_t_small; [reflexivity|]. lia.
Qed.

Lemma Restore_shader_objects_of_Create_witness :
  ∃ s, Create new_state Examples.shader_object_cb VK_PIPELINE_BIND_POINT_GRAPHICS
       = Some s
    ∧ Restore ∅ s
      = Some [CmdBindShadersEXT 1 2
                [Examples.VK_SHADER_STAGE_VERTEX_BIT;
                 Examples.VK_SHADER_STAGE_FRAGMENT_BIT] [11; 12]].
Proof.
  destruct (Restore_shader_objects_of_Create ∅ Examples.shader_object_cb
              VK_PIPELINE_BIND_POINT_GRAPHICS BindPoint_Graphics
              eq_refl eq_refl) as (s & Hs & Hcmds & _).
  exists s. split; [exact Hs | exact Hcmds].
Defined.

(** ** The push-constant block after a restore *)

Lemma push_constants_effect_frame (s : RestorablePipelineState)
    (r : VkPushConstantRange) (block : list Z) (j : nat) :
  ¬ in_range r j →
  push_constants_effect (reissued_push_constants s r) block !! j = block !! j.
Proof.
  unfold in_range, reissued_push_constants, push_constants_effect. simpl.
  intros Hout.
  destruct (decide (j < Z.to_nat (offset r))%nat) as [Hlt|Hge].
  - apply list_lookup_inserts_lt. exact Hlt.
  - apply list_lookup_inserts_ge.
    pose proof (length_take_le (push_constants_data_ s) (Z.to_nat (size r))).
    rewrite length_take. lia.
Qed.

Lemma push_constants_effect_length (c : Cmd) (block : list Z) :
  length (push_constants_effect c block) = length block.
Proof.
  destruct c; simpl; try reflexivity. apply length_inserts.
Qed.

Lemma replay_push_constants_length (cmds : list Cmd) :
  ∀ block, length (replay_push_constants cmds block) = length block.
Proof.
  unfold replay_push_constants.
  induction cmds as [|c cmds IH]; intros block; simpl; [reflexivity|].
  rewrite IH. apply push_constants_effect_length.
Qed.

(** Replaying the commands of a restore on any push-constant block keeps
    the block's length and leaves every byte outside the captured ranges
    of non-zero size as it was. *)
Theorem replay_push_constants_frame
    (store : RangesStore) (s : RestorablePipelineState) (cmds : list Cmd)
    (block : list Z) (j : nat) :
  Restore store s = Some cmds →
  (∀ ranges r,
     deref store (push_constants_ranges_ s) = Some ranges →
     r ∈ ranges → size r ≠ 0 → ¬ in_range r j) →
  length (replay_push_constants cmds block) = length block
  ∧ replay_push_constants cmds block !! j = block !! j.
Proof.
  intros Hcmds Hout. split; [apply replay_push_constants_length|].
  assert (Hall : Forall (λ c, ∀ b, push_constants_effect c b !! j = b !! j) cmds).
  { apply Forall_forall. intros c Hin b.
    destruct (is_push_constants c) eqn:Hkind;
      [|destruct c; try reflexivity; discriminate].
    destruct (Restore_push_constants_origin store s cmds c Hcmds Hin Hkind)
      as (ranges & r & Hranges & Hr & Hsize & ->).
    apply push_constants_effect_frame. exact (Hout ranges r Hranges Hr Hsize). }
  clear Hcmds Hout. revert block. unfold replay_push_constants.
  induction Hall as [|c cmds Hc _ IH]; intros block; simpl; [reflexivity|].
  rewrite IH. apply Hc.
Qed.

Lemma replay_push_constants_frame_witness :
  Restore Examples.scenario_store Examples.scenario_snapshot
  = Some Examples.scenario_cmds
  ∧ replay_push_constants Examples.scenario_cmds [9; 9; 9; 9; 9; 9] !! 5%nat
    = Some 9.
Proof.
  assert (Hcmds : Restore Examples.scenario_store Examples.scenario_snapshot
                  = Some Examples.scenario_cmds) by reflexivity.
  split; [exact Hcmds|].
  refine (proj2 (replay_push_constants_frame Examples.scenario_store
                   Examples.scenario_snapshot Examples.scenario_cmds
                   [9; 9; 9; 9; 9; 9] 5 Hcmds _)).
  intros ranges r Hranges Hr _. vm_compute in Hranges. injection Hranges as <-.
  apply list_elem_of_singleton in Hr. subst r.
  unfold in_range. simpl. lia.
Defined.

Lemma replay_push_constants_offset_zero_witness :
  Restore Examples.scenario_store Examples.scenario_snapshot
  = Some Examples.scenario_cmds
  ∧ replay_push_constants Examples.scenario_cmds
      (push_constants_data_ Examples.scenario_snapshot)
    = push_constants_data_ Examples.scenario_snapshot.
Proof.
  assert (Hcmds : Restore Examples.scenario_store Examples.scenario_snapshot
                  = Some Examples.scenario_cmds) by reflexivity.
  split; [exact Hcmds|].
  apply (replay_push_constants_offset_zero Examples.scenario_store
           Examples.scenario_snapshot Examples.scenario_cmds Hcmds).
  intros ranges r Hranges Hr _. vm_compute in Hranges. injection Hranges as <-.
  apply list_elem_of_singleton in Hr. subst r. reflexivity.
Defined.
